(** * smallsh: the command parser, the process supervisor and the reap sweep

    A shallow embedding of [main.c] and [src/shell_info.c].  Integers of the C
    program are [Z]; C strings are [string]; the [struct shell_info] is a
    record; the calls into the operating system are answered by an explicit
    environment, and what a process does to the outside world is collected in
    a trace of events.

    Abstraction of memory: the strings held by [args[i]] are values (the heap
    blocks obtained from [malloc] are not modelled); the two fixed-size
    arrays the program writes through an index or [strcpy], [args[512]] and
    the 256-byte file-name buffers, are bounded as in the source, and a write
    past their end, like a read through a NULL pointer, is a [fault].
    The heap is where the model stops: [parse_line] copies each token into a
    block of [strlen(token)] bytes, one byte short of what [strcpy] writes,
    which the allocator may or may not notice when [free_memory] frees the
    block; the model follows the runs in which it does not, and leaves
    [free_memory], which touches nothing but the heap and the array it sets
    back to NULL, out.  [close] changes nothing that is modelled;
    [print_args] is not called by the program. *)

From Stdlib Require Import List String Ascii ZArith Lia Bool DecimalString.
Import ListNotations.
Open Scope string_scope.
Open Scope list_scope.
Open Scope Z_scope.

(** ** C strings and [strtok_r] *)

Definition nl : string := String "010"%char EmptyString.
Definition space : ascii := " "%char.
Definition newline : ascii := "010"%char.

(** [printf("%d", n)] *)
Definition dec (n : Z) : string := NilZero.string_of_int (Z.to_int n).

Definition strlen (s : string) : Z := Z.of_nat (String.length s).

(** [strcmp(a, b) == 0] *)
Definition streq (a b : string) : bool := String.eqb a b.

(** The part of [s] that starts at its first character other than [delim]. *)
Fixpoint skip_delims (delim : ascii) (s : string) : string :=
  match s with
  | EmptyString => EmptyString
  | String c s' => if Ascii.eqb c delim then skip_delims delim s' else s
  end.

(** The characters of [s] up to the first [delim], and the text after that
    delimiter (the save pointer). *)
Fixpoint take_token (delim : ascii) (s : string) : string * string :=
  match s with
  | EmptyString => (EmptyString, EmptyString)
  | String c s' =>
      if Ascii.eqb c delim then (EmptyString, s')
      else let (t, r) := take_token delim s' in (String c t, r)
  end.

(** [strtok_r(s, delim, &saveptr)] for a delimiter set of one character (both
    call sites of the program pass such a set): the token, or [None] for
    NULL, and the new save pointer.  A continuation call
    [strtok_r(NULL, delim, &saveptr)] is [strtok_r delim saveptr]. *)
Definition strtok_r (delim : ascii) (s : string) : option string * string :=
  match skip_delims delim s with
  | EmptyString => (None, EmptyString)
  | String c s' => let (t, r) := take_token delim (String c s') in (Some t, r)
  end.

(** The tokens that successive calls of [strtok_r] return until the first
    NULL; [fuel] bounds the number of calls. *)
Fixpoint tokens_upto (fuel : nat) (delim : ascii) (s : string) : list string :=
  match fuel with
  | O => []
  | S fuel' =>
      match strtok_r delim s with
      | (None, _) => []
      | (Some t, r) => t :: tokens_upto fuel' delim r
      end
  end.

(** Every token consumes a character, so [length s + 1] calls reach NULL. *)
Definition tokens (delim : ascii) (s : string) : list string :=
  tokens_upto (S (String.length s)) delim s.

(** ** [struct shell_info] (src/shell_info.h) *)

Record shell_info : Type := mk_shell_info {
  background : Z;
  exit_status : Z;
  output_redirect : Z;
  input_redirect : Z;
  output_filename : string;   (* char [256] *)
  input_filename : string     (* char [256] *)
}.

Definition FILENAME_SIZE : Z := 256.
Definition ARGS_SIZE : Z := 512.

Definition set_background (v : Z) (i : shell_info) : shell_info :=
  mk_shell_info v (exit_status i) (output_redirect i) (input_redirect i)
                (output_filename i) (input_filename i).
Definition set_exit_status (v : Z) (i : shell_info) : shell_info :=
  mk_shell_info (background i) v (output_redirect i) (input_redirect i)
                (output_filename i) (input_filename i).
Definition set_output_redirect (v : Z) (i : shell_info) : shell_info :=
  mk_shell_info (background i) (exit_status i) v (input_redirect i)
                (output_filename i) (input_filename i).
Definition set_input_redirect (v : Z) (i : shell_info) : shell_info :=
  mk_shell_info (background i) (exit_status i) (output_redirect i) v
                (output_filename i) (input_filename i).
Definition set_output_filename (v : string) (i : shell_info) : shell_info :=
  mk_shell_info (background i) (exit_status i) (output_redirect i)
                (input_redirect i) v (input_filename i).
Definition set_input_filename (v : string) (i : shell_info) : shell_info :=
  mk_shell_info (background i) (exit_status i) (output_redirect i)
                (input_redirect i) (output_filename i) v.

(** [init_shell_info] (src/shell_info.c): five assignments; [exit_status] is
    not among them.  A buffer filled with zero bytes holds the empty string. *)
Definition init_shell_info (info : shell_info) : shell_info :=
  set_output_filename ""
    (set_input_filename ""
       (set_output_redirect 0 (set_input_redirect 0 (set_background 0 info)))).

(** ** [parse_line] *)

Inductive fault : Type :=
| NullPointer       (* a NULL token handed to strlen or strcpy *)
| BufferOverflow.   (* a write past the end of a fixed-size array *)

Inductive result (A : Type) : Type :=
| Ok (a : A)
| Fault (f : fault).
Arguments Ok {A} a.
Arguments Fault {A} f.

(** [strcpy(buffer, token)] into one of the 256-byte file-name buffers, for a
    token other than NULL: the token and its final zero byte have to fit. *)
Definition strcpy_filename (token : string) : result string :=
  if FILENAME_SIZE <=? strlen token then Fault BufferOverflow else Ok token.

(** [args[i] = ...; i++] with [i = length args]; [args] has 512 slots. *)
Definition push_arg (args : list string) (a : string) : result (list string) :=
  if ARGS_SIZE <=? Z.of_nat (List.length args) then Fault BufferOverflow
  else Ok (args ++ [a]).

(** The [while] loop of [parse_line], over the tokens that the continuation
    calls of [strtok_r] return ([rest] is what the later calls will return;
    after the last token every call returns NULL). *)
Fixpoint parse_rest (pid : Z) (toks : list string) (info : shell_info)
         (args : list string) : result (list string * shell_info) :=
  match toks with
  | [] => Ok (args, info)
  | token :: rest =>
      if streq token "<" then
        let info := set_input_redirect 1 info in
        match rest with
        | [] => Fault NullPointer          (* strcpy(..., NULL) *)
        | token :: rest =>
            match strcpy_filename token with
            | Fault f => Fault f
            | Ok name => parse_rest pid rest (set_input_filename name info) args
            end
        end
      else if streq token ">" then
        let info := set_output_redirect 1 info in
        match rest with
        | [] => Fault NullPointer          (* strcpy(..., NULL) *)
        | token :: rest =>
            match strcpy_filename token with
            | Fault f => Fault f
            | Ok name => parse_rest pid rest (set_output_filename name info) args
            end
        end
      else if streq token "&" then
        parse_rest pid rest (set_background 1 info) args
      else if streq token "$$" then
        match push_arg args (dec pid) with
        | Fault f => Fault f
        | Ok args' => parse_rest pid rest info args'
        end
      else
        match push_arg args token with
        | Fault f => Fault f
        | Ok args' => parse_rest pid rest info args'
        end
  end.

(** [parse_line(line, info, args)]; [args] is all NULL on entry (it is
    initialised so and [free_memory] sets it back), [pid] is what [getpid]
    returns. *)
Definition parse_line (pid : Z) (line : string) (info : shell_info)
  : result (list string * shell_info) :=
  match tokens space line with
  | [] => Fault NullPointer                (* strlen(NULL) *)
  | token :: rest => parse_rest pid rest info [token]
  end.

(** ** Processes and the operating system *)

Inductive signal : Type := SIGINT | SIGTSTP.

Inductive sighandler : Type :=
| SIG_DFL
| SIG_IGN
| Handler_handle_SIG.       (* the function handle_SIG *)

(** What descriptor 0 or 1 of a process refers to. *)
Inductive stream : Type :=
| Terminal
| File (path : string).

Inductive open_mode : Type :=
| O_RDONLY
| O_WRONLY_CREAT_TRUNC.     (* O_WRONLY | O_CREAT | O_TRUNC, 0777 *)

Definition WNOHANG : Z := 1.

(** What a process does that another party can observe, in order. *)
Inductive event : Type :=
| Ev_write (target : stream) (text : string)   (* bytes written to descriptor 1 *)
| Ev_perror (msg : string)
| Ev_waitpid (pid options ret : Z)
| Ev_chdir (path : option string).

(** The two returns of [fork], and its failure. *)
Inductive fork_result : Type :=
| Fork_failed
| In_child (own_pid : Z)
| In_parent (child_pid : Z).

(** The answers of the operating system during one command cycle. *)
Record os : Type := mk_os {
  os_fork : fork_result;
  os_open : string -> open_mode -> Z;           (* a descriptor, or -1 *)
  os_dup2 : Z -> Z -> Z;                        (* its second argument, or -1 *)
  os_execvp : string -> list string -> bool;    (* true: the image is replaced *)
  os_chdir : option string -> Z;
  os_home : option string;                      (* getenv("HOME") *)
  os_fate : Z -> Z                  (* the wait status child pid ends with *)
}.

(** One process: the variables of the program that outlive a call, the
    signal dispositions, descriptors 0 and 1, the stdio buffer of [stdout],
    the children it has not waited for, and its trace. *)
Record proc : Type := mk_proc {
  p_pid : Z;
  p_info : shell_info;            (* info, in the frame of small_shell *)
  p_stop_background : Z;          (* the global stop_background *)
  p_sigint : sighandler;
  p_sigtstp : sighandler;
  p_stdin : stream;
  p_stdout : stream;
  p_buffer : string;
  p_running : list Z;             (* children still running *)
  p_zombies : list (Z * Z);       (* terminated children: pid, wait status *)
  p_trace : list event
}.

Definition with_info (f : shell_info -> shell_info) (p : proc) : proc :=
  mk_proc (p_pid p) (f (p_info p)) (p_stop_background p) (p_sigint p)
          (p_sigtstp p) (p_stdin p) (p_stdout p) (p_buffer p) (p_running p)
          (p_zombies p) (p_trace p).
Definition with_stop_background (v : Z) (p : proc) : proc :=
  mk_proc (p_pid p) (p_info p) v (p_sigint p) (p_sigtstp p) (p_stdin p)
          (p_stdout p) (p_buffer p) (p_running p) (p_zombies p) (p_trace p).
Definition with_sigint (h : sighandler) (p : proc) : proc :=
  mk_proc (p_pid p) (p_info p) (p_stop_background p) h (p_sigtstp p)
          (p_stdin p) (p_stdout p) (p_buffer p) (p_running p) (p_zombies p)
          (p_trace p).
Definition with_sigtstp (h : sighandler) (p : proc) : proc :=
  mk_proc (p_pid p) (p_info p) (p_stop_background p) (p_sigint p) h
          (p_stdin p) (p_stdout p) (p_buffer p) (p_running p) (p_zombies p)
          (p_trace p).
Definition with_stdin (s : stream) (p : proc) : proc :=
  mk_proc (p_pid p) (p_info p) (p_stop_background p) (p_sigint p)
          (p_sigtstp p) s (p_stdout p) (p_buffer p) (p_running p)
          (p_zombies p) (p_trace p).
Definition with_stdout (s : stream) (p : proc) : proc :=
  mk_proc (p_pid p) (p_info p) (p_stop_background p) (p_sigint p)
          (p_sigtstp p) (p_stdin p) s (p_buffer p) (p_running p)
          (p_zombies p) (p_trace p).
Definition with_buffer (b : string) (p : proc) : proc :=
  mk_proc (p_pid p) (p_info p) (p_stop_background p) (p_sigint p)
          (p_sigtstp p) (p_stdin p) (p_stdout p) b (p_running p)
          (p_zombies p) (p_trace p).
Definition with_children (r : list Z) (z : list (Z * Z)) (p : proc) : proc :=
  mk_proc (p_pid p) (p_info p) (p_stop_background p) (p_sigint p)
          (p_sigtstp p) (p_stdin p) (p_stdout p) (p_buffer p) r z (p_trace p).
Definition log (e : event) (p : proc) : proc :=
  mk_proc (p_pid p) (p_info p) (p_stop_background p) (p_sigint p)
          (p_sigtstp p) (p_stdin p) (p_stdout p) (p_buffer p) (p_running p)
          (p_zombies p) (p_trace p ++ [e]).

(** How a piece of the program ends: it returns, the process leaves through
    [exit], the image is replaced by [execvp], or the process faults. *)
Inductive outcome (A : Type) : Type :=
| Val (a : A)
| Exited (code : Z)
| Execed (file : string) (argv : list string)
| Faulted (f : fault).
Arguments Val {A} a.
Arguments Exited {A} code.
Arguments Execed {A} file argv.
Arguments Faulted {A} f.

Definition M (A : Type) : Type := proc -> outcome A * proc.

Definition ret {A : Type} (a : A) : M A := fun p => (Val a, p).

Definition bind {A B : Type} (m : M A) (k : A -> M B) : M B :=
  fun p =>
    match m p with
    | (Val a, p') => k a p'
    | (Exited c, p') => (Exited c, p')
    | (Execed f v, p') => (Execed f v, p')
    | (Faulted f, p') => (Faulted f, p')
    end.

Notation "x <- m ;; k" := (bind m (fun x => k))
  (at level 61, m at next level, right associativity).
Notation "m ;; k" := (bind m (fun _ => k))
  (at level 61, right associativity).

Definition get {A : Type} (f : proc -> A) : M A := fun p => (Val (f p), p).
Definition modify (f : proc -> proc) : M unit := fun p => (Val tt, f p).
Definition when (b : bool) (m : M unit) : M unit := if b then m else ret tt.
Definition lift_result {A : Type} (r : result A) : M A :=
  fun p => match r with Ok a => (Val a, p) | Fault f => (Faulted f, p) end.

(** *** stdio and process exit

    Text given to [printf] waits in the buffer of [stdout] until it is
    flushed, and leaves in one write.  (On a terminal the C library also
    flushes at each newline; every text with a newline that the program
    prints is followed by [fflush] at once, so the bytes and their order are
    the same.) *)

Definition printf (text : string) : M unit :=
  modify (fun p => with_buffer (p_buffer p ++ text)%string p).

(** [fflush(stdout)]: the buffered bytes go to whatever descriptor 1 is. *)
Definition fflush : M unit :=
  modify (fun p =>
            if streq (p_buffer p) "" then p
            else with_buffer "" (log (Ev_write (p_stdout p) (p_buffer p)) p)).

(** [write(STDOUT_FILENO, msg, n)] *)
Definition write_stdout (msg : string) (n : nat) : M unit :=
  modify (fun p => log (Ev_write (p_stdout p) (substring 0 n msg)) p).

Definition perror (msg : string) : M unit := modify (log (Ev_perror msg)).

(** [exit(code)] flushes the stdio buffers and ends the process. *)
Definition c_exit {A : Type} (code : Z) : M A :=
  fun p => match fflush p with (_, p') => (Exited code, p') end.

Definition getpid : M Z := get p_pid.

(** *** Wait statuses (the macros of sys/wait.h, as the C library of Linux
    defines them) *)

Definition WTERMSIG (status : Z) : Z := Z.land status 127.
Definition WIFEXITED (status : Z) : bool := WTERMSIG status =? 0.
Definition WEXITSTATUS (status : Z) : Z := Z.shiftr (Z.land status 65280) 8.

(** The wait status of a process that called [exit(code)]. *)
Definition W_EXITCODE (code : Z) : Z := Z.shiftl (Z.land code 255) 8.

(** *** [fork] and [waitpid] *)

(** The memory of the child is a copy of the parent's (so are the stdio
    buffer, the dispositions and the descriptors); it has no children. *)
Definition child_of (own_pid : Z) (p : proc) : proc :=
  mk_proc own_pid (p_info p) (p_stop_background p) (p_sigint p) (p_sigtstp p)
          (p_stdin p) (p_stdout p) (p_buffer p) [] [] [].

Definition fork (E : os) : M Z :=
  fun p =>
    match os_fork E with
    | Fork_failed => (Val (-1), p)
    | In_child own => (Val 0, child_of own p)
    | In_parent c => (Val c, with_children (c :: p_running p) (p_zombies p) p)
    end.

Fixpoint remove_pid (pid : Z) (l : list Z) : list Z :=
  match l with
  | [] => []
  | x :: l' => if x =? pid then l' else x :: remove_pid pid l'
  end.

Fixpoint find_zombie (pid : Z) (l : list (Z * Z)) : option (Z * list (Z * Z)) :=
  match l with
  | [] => None
  | (c, st) :: l' =>
      if c =? pid then Some (st, l')
      else match find_zombie pid l' with
           | Some (s, r) => Some (s, (c, st) :: r)
           | None => None
           end
  end.

Definition is_running (pid : Z) (l : list Z) : bool :=
  existsb (fun x => x =? pid) l.

(** What [waitpid] answers: the value it returns, the status it stores (if
    it stores one) and the children left.  With [pid = -1] any terminated
    child is taken; a call without [WNOHANG] for a child that still runs
    returns when that child has ended, with the status [os_fate] gives. *)
Definition waitpid_answer (E : os) (pid options : Z) (p : proc)
  : Z * option Z * list Z * list (Z * Z) :=
  if pid =? -1 then
    match p_zombies p with
    | (c, st) :: zs => (c, Some st, p_running p, zs)
    | [] =>
        match p_running p with
        | [] => (-1, None, [], [])
        | c :: rs =>
            if options =? WNOHANG then (0, None, c :: rs, [])
            else (c, Some (os_fate E c), rs, [])
        end
    end
  else
    match find_zombie pid (p_zombies p) with
    | Some (st, zs) => (pid, Some st, p_running p, zs)
    | None =>
        if is_running pid (p_running p) then
          if options =? WNOHANG then (0, None, p_running p, p_zombies p)
          else (pid, Some (os_fate E pid), remove_pid pid (p_running p),
                p_zombies p)
        else (-1, None, p_running p, p_zombies p)
    end.

(** [waitpid(pid, &info->exit_status, options)]: every call of the program
    passes the address of [info->exit_status]. *)
Definition waitpid (E : os) (pid options : Z) : M Z :=
  fun p =>
    match waitpid_answer E pid options p with
    | (r, st, running, zombies) =>
        let p1 := with_children running zombies p in
        let p2 := match st with
                  | Some s => with_info (set_exit_status s) p1
                  | None => p1
                  end in
        (Val r, log (Ev_waitpid pid options r) p2)
    end.

(** A running child ends while the shell does something else.  (Which of
    several ended children [waitpid(-1, ...)] takes first is the kernel's
    choice; the list keeps them as they are put in, and this function is
    used for one child at a time.) *)
Definition child_terminates (E : os) (pid : Z) (p : proc) : proc :=
  if is_running pid (p_running p) then
    with_children (remove_pid pid (p_running p))
                  (p_zombies p ++ [(pid, os_fate E pid)]) p
  else p.

(** ** Built-in commands *)

Definition my_exit : M Z :=
  printf ("exiting shell " ++ nl)%string ;;
  fflush ;;
  ret 0.

Definition chdir (E : os) (path : option string) : M Z :=
  modify (log (Ev_chdir path)) ;; ret (os_chdir E path).

(** [args[1]] *)
Definition arg1 (args : list string) : option string := nth_error args 1.

Definition my_cd (E : os) (args : list string) : M unit :=
  match arg1 args with
  | None =>
      r <- chdir E (os_home E) ;;
      when (negb (r =? 0)) (printf "chdir() failed")
  | Some dir =>
      r <- chdir E (Some dir) ;;
      when (negb (r =? 0)) (printf "chdir() failed")
  end.

Definition my_status (exit_status : Z) : M unit :=
  if WIFEXITED exit_status then
    printf ("exit value " ++ dec (WEXITSTATUS exit_status) ++ " " ++ nl)%string ;;
    fflush
  else
    printf ("terminated by signal " ++ dec (WTERMSIG exit_status) ++ " " ++ nl)%string ;;
    fflush.

(** ** Redirection *)

Definition output_redirection (E : os) (filename : string) : M unit :=
  let fd := os_open E filename O_WRONLY_CREAT_TRUNC in
  if fd =? -1 then
    perror ("Output file could not be opened " ++ nl)%string ;;
    c_exit 1
  else
    let d := os_dup2 E fd 1 in
    if d =? -1 then
      perror "Output file could not be redirected" ;;
      c_exit 1
    else
      modify (with_stdout (File filename)).

Definition input_redirection (E : os) (filename : string) : M unit :=
  let fd := os_open E filename O_RDONLY in
  if fd =? -1 then
    perror ("Input file could not be opened " ++ nl)%string ;;
    c_exit 1
  else
    let d := os_dup2 E fd 0 in
    if d =? -1 then
      perror "Input file could not be redirected" ;;
      c_exit 0
    else
      modify (with_stdin (File filename)).

(** ** Signals *)

Definition sigaction (sig : signal) (h : sighandler) : M unit :=
  match sig with
  | SIGINT => modify (with_sigint h)
  | SIGTSTP => modify (with_sigtstp h)
  end.

Definition custom_SIG : M unit := sigaction SIGINT SIG_IGN.
Definition custom_SIGTSTP : M unit := sigaction SIGTSTP Handler_handle_SIG.
Definition custom_IG : M unit := sigaction SIGTSTP SIG_IGN.

Definition handle_SIG : M unit :=
  stop <- get p_stop_background ;;
  if stop =? 0 then
    write_stdout ("Entering foreground-only mode (& is now ignored) " ++ nl)%string 50 ;;
    fflush ;;
    modify (with_stop_background 1)
  else
    write_stdout ("Exiting foreground-only mode " ++ nl)%string 30 ;;
    fflush ;;
    modify (with_stop_background 0).

(** The terminal-stop signal reaches the process between two of its steps.
    (Its default action, stopping the process, is not modelled: the shell
    installs [handle_SIG] and every child ignores the signal.) *)
Definition deliver_SIGTSTP : M unit :=
  h <- get p_sigtstp ;;
  match h with
  | Handler_handle_SIG => handle_SIG
  | _ => ret tt
  end.

(** ** [other_cmd] *)

(** [execvp(args[0], args)], [argv] being the strings in [args]: when the
    program is found, its argument vector is read from the array up to the
    first NULL, and an array whose 512 slots are all taken has none: the
    read goes on at [args[512]]. *)
Definition execvp (E : os) (file : string) (argv : list string) : M Z :=
  fun p =>
    if os_execvp E file argv then
      if ARGS_SIZE <=? Z.of_nat (List.length argv)
      then (Faulted BufferOverflow, p)
      else (Execed file argv, p)
    else (Val (-1), p).

(** [info->background && !stop_background], as the process that evaluates
    it finds the two variables. *)
Definition background_test (p : proc) : bool :=
  negb (background (p_info p) =? 0) && (p_stop_background p =? 0).

(** The [switch (spawnPid)] of [other_cmd]: all that follows [fork]. *)
Definition other_cmd_switch (E : os) (args : list string) (spawnPid : Z)
  : M unit :=
  if spawnPid =? -1 then
    perror ("fork() " ++ nl)%string ;;
    c_exit 1
  else if spawnPid =? 0 then
    custom_IG ;;
    bg <- get background_test ;;
    (if bg then
       pid <- getpid ;;
       printf ("background pid is " ++ dec pid ++ " " ++ nl)%string ;;
       fflush ;;
       info <- get p_info ;;
       when (output_redirect info =? 0) (output_redirection E "/dev/null") ;;
       when (input_redirect info =? 0) (input_redirection E "/dev/null")
     else
       sigaction SIGINT SIG_DFL) ;;
    info <- get p_info ;;
    when (negb (input_redirect info =? 0))
         (input_redirection E (input_filename info)) ;;
    when (negb (output_redirect info =? 0))
         (output_redirection E (output_filename info)) ;;
    execvp E (hd "" args) args ;;
    perror "execvp" ;;
    c_exit 2
  else
    bg <- get background_test ;;
    if bg then
      waitpid E spawnPid WNOHANG ;;
      ret tt
    else
      waitpid E spawnPid 0 ;;
      info <- get p_info ;;
      when (negb (exit_status info =? 0)) (my_status (exit_status info)).

Definition other_cmd (E : os) (args : list string) : M unit :=
  spawnPid <- fork E ;;
  other_cmd_switch E args spawnPid.

(** ** [execute_cmd] and the reap sweep *)

(** The [while] loop that ends [execute_cmd]; [fuel] bounds its rounds. *)
Fixpoint sweep_loop (E : os) (fuel : nat) : M unit :=
  match fuel with
  | O => ret tt
  | S fuel' =>
      corpse <- waitpid E (-1) WNOHANG ;;
      if corpse >? 0 then
        printf ("background pid " ++ dec corpse ++ " is done: ")%string ;;
        fflush ;;
        info <- get p_info ;;
        my_status (exit_status info) ;;
        sweep_loop E fuel'
      else ret tt
  end.

(** Every round but the last takes one terminated child, so one round more
    than there are such children ends the loop by its own test. *)
Definition sweep (E : os) : M unit :=
  fun p => sweep_loop E (S (List.length (p_zombies p))) p.

(** [args[0][0] == '#'] *)
Definition starts_with_hash (s : string) : bool :=
  match s with
  | String c _ => Ascii.eqb c "#"%char
  | EmptyString => false
  end.

(** The chain of tests on [args[0]] that opens [execute_cmd]; its value is
    the local [status]. *)
Definition dispatch (E : os) (args : list string) : M Z :=
  match args with
  | [] => fun p => (Faulted NullPointer, p)         (* strcmp(NULL, ...) *)
  | arg0 :: _ =>
      if streq arg0 "exit" then my_exit
      else if streq arg0 "cd" then my_cd E args ;; ret 1
      else if streq arg0 "status" then
        info <- get p_info ;; my_status (exit_status info) ;; ret 1
      else if streq arg0 nl || starts_with_hash arg0 then ret 1
      else other_cmd E args ;; ret 1
  end.

Definition execute_cmd (E : os) (args : list string) : M Z :=
  status <- dispatch E args ;;
  sweep E ;;
  ret status.

(** ** The main loop *)

(** The buffer after [strtok(buf, "\n")]: cut at the first newline that
    follows a character other than a newline, and left as it is when it
    holds nothing but newlines. *)
Definition chomp (buf : string) : string :=
  match strtok_r newline buf with
  | (None, _) => buf
  | (Some t, _) =>
      (substring 0 (String.length buf - String.length (skip_delims newline buf)) buf
       ++ t)%string
  end.

(** [get_input]; [buf] is what [fgets] stored. *)
Definition get_input (buf : string) : M string :=
  printf ": " ;;
  fflush ;;
  ret (chomp buf).

(** One round of the [do ... while (status)] loop of [small_shell]. *)
Definition shell_cycle (E : os) (buf : string) : M Z :=
  modify (with_info init_shell_info) ;;
  line <- get_input buf ;;
  pid <- getpid ;;
  info <- get p_info ;;
  parsed <- lift_result (parse_line pid line info) ;;
  modify (with_info (fun _ => snd parsed)) ;;
  status <- execute_cmd E (fst parsed) ;;
  ret status.

(** The loop, over the lines the user enters and the answers of the
    operating system during each round. *)
Fixpoint shell_loop (rounds : list (os * string)) : M unit :=
  match rounds with
  | [] => ret tt
  | (E, buf) :: rounds' =>
      status <- shell_cycle E buf ;;
      if status =? 0 then ret tt else shell_loop rounds'
  end.

Definition small_shell (rounds : list (os * string)) : M unit :=
  custom_SIG ;;
  custom_SIGTSTP ;;
  printf ("smallsh " ++ nl)%string ;;
  fflush ;;
  shell_loop rounds.

(** The process at the start of [main]: [stop_background] is a global and so
    zero; [info] is a local of [small_shell] without an initialiser, and
    holds whatever [garbage] its stack slot does. *)
Definition initial_proc (pid : Z) (garbage : shell_info) : proc :=
  mk_proc pid garbage 0 SIG_DFL SIG_DFL Terminal Terminal "" [] [] [].

(** ** What the statements below are phrased with *)

(** The tokens the loop of [parse_line] looks at as words of the command:
    all but [<], [>] and the token that follows either. *)
Fixpoint command_words (toks : list string) : list string :=
  match toks with
  | [] => []
  | t :: rest =>
      if streq t "<" || streq t ">" then
        match rest with
        | [] => []
        | _ :: rest' => command_words rest'
        end
      else t :: command_words rest
  end.

Definition is_amp (t : string) : bool := streq t "&".

(** The argument a word other than [&] becomes. *)
Definition expand (pid : Z) (t : string) : string :=
  if streq t "$$" then dec pid else t.

Definition spaces (n : nat) : string := string_of_list_ascii (repeat space n).

(** The text of [my_status]. *)
Definition status_text (status : Z) : string :=
  if WIFEXITED status then
    ("exit value " ++ dec (WEXITSTATUS status) ++ " " ++ nl)%string
  else
    ("terminated by signal " ++ dec (WTERMSIG status) ++ " " ++ nl)%string.

(** The events of a sweep that finds the terminated children [zs], with
    [buf] in the stdio buffer when it starts. *)
Fixpoint reports (out : stream) (buf : string) (zs : list (Z * Z)) : list event :=
  match zs with
  | [] => []
  | (c, st) :: zs' =>
      Ev_waitpid (-1) WNOHANG c
      :: Ev_write out (buf ++ "background pid " ++ dec c ++ " is done: ")%string
      :: Ev_write out (status_text st)
      :: reports out "" zs'
  end.

Definition is_wait (e : event) : bool :=
  match e with Ev_waitpid _ _ _ => true | _ => false end.

(** ** Environments and states of concrete runs *)

Definition with_fork (r : fork_result) (E : os) : os :=
  mk_os r (os_open E) (os_dup2 E) (os_execvp E) (os_chdir E) (os_home E)
        (os_fate E).

(** An operating system in which every call succeeds; [open] answers
    descriptor 3, every child ends with [exit(0)]. *)
Definition os_fine (r : fork_result) : os :=
  mk_os r (fun _ _ => 3) (fun _ newfd => newfd) (fun _ _ => true)
        (fun _ => 0) (Some "/home/user") (fun _ => W_EXITCODE 0).

(** The shell, process 4242, when it enters its loop. *)
Definition shell_at_prompt : proc :=
  snd (small_shell [] (initial_proc 4242 (mk_shell_info 0 0 0 0 "" ""))).

(** A line as [fgets] stores it. *)
Definition typed (text : string) : string := (text ++ nl)%string.

(** [other_cmd] when the terminal-stop signal reaches the process after
    [fork] has returned and before the [switch] is entered. *)
Definition other_cmd_SIGTSTP_after_fork (E : os) (args : list string) : M unit :=
  spawnPid <- fork E ;;
  deliver_SIGTSTP ;;
  other_cmd_switch E args spawnPid.

(** [open] succeeds and [dup2] onto descriptor 0 fails. *)
Definition os_dup2_stdin_fails (r : fork_result) : os :=
  mk_os r (fun _ _ => 3) (fun _ newfd => if newfd =? 0 then -1 else newfd)
        (fun _ _ => true) (fun _ => 0) (Some "/home/user")
        (fun _ => W_EXITCODE 0).

(** Child 4301 ends with [exit(1)], every other child with [exit(0)]. *)
Definition os_4301_fails (r : fork_result) : os :=
  mk_os r (fun _ _ => 3) (fun _ newfd => newfd) (fun _ _ => true)
        (fun _ => 0) (Some "/home/user")
        (fun pid => if pid =? 4301 then W_EXITCODE 1 else W_EXITCODE 0).

(** The shell after [sleep 1 &] has started child 4300 and that child has
    ended while the shell was reading the next line. *)
Definition shell_with_ended_job : proc :=
  child_terminates (os_fine Fork_failed) 4300
    (snd (shell_cycle (os_fine (In_parent 4300)) (typed "sleep 1 &")
                      shell_at_prompt)).

(** The shell after it has read [sleep 5 &]: what [other_cmd] starts from. *)
Definition shell_before_sleep_5 : proc :=
  with_info (fun _ => mk_shell_info 1 0 0 0 "" "") shell_at_prompt.

(** The same while [stop_background] is set. *)
Definition shell_foreground_only : proc :=
  with_stop_background 1 shell_before_sleep_5.

(** The shell with two children that have ended and one that runs. *)
Definition shell_with_two_ended_jobs : proc :=
  with_children [4302] [(4300, W_EXITCODE 0); (4301, 15)] shell_at_prompt.

(** ** Reasoning about a run *)

(** [m] adds events to the trace and removes none. *)
Definition grows {A : Type} (m : M A) : Prop :=
  forall p, exists t, p_trace (snd (m p)) = p_trace p ++ t.

(** Weakest precondition of [m] for a condition [Q] on the value and state
    it returns with and a condition [X] on the state in which it replaces
    the image; a run that ends in [exit] or a fault reaches neither. *)
Definition wp {A : Type} (m : M A) (Q : A -> proc -> Prop)
           (X : proc -> Prop) (p : proc) : Prop :=
  match m p with
  | (Val a, p') => Q a p'
  | (Execed _ _, p') => X p'
  | (Exited _, _) => True
  | (Faulted _, _) => True
  end.


(** ** The argument array of [small_shell] *)

(** [char* args[512]]: a slot holds a string or NULL. *)
Definition args_array : Type := list (option string).

(** The array after the [for] loop that opens [small_shell]. *)
Definition null_args : args_array := repeat None 512.

(** [arr[i] = a], for [i] within the array. *)
Fixpoint store (i : nat) (a : string) (arr : args_array) : args_array :=
  match arr, i with
  | [], _ => []
  | _ :: rest, O => Some a :: rest
  | x :: rest, S i' => x :: store i' a rest
  end.

Definition set_slot (arr : args_array) (i : nat) (a : string)
  : result args_array :=
  if ARGS_SIZE <=? Z.of_nat i then Fault BufferOverflow else Ok (store i a arr).

(** The loop of [parse_line] on the array itself: [i] is the argument
    counter; no slot is written but [args[i]], and no NULL is stored after
    the last argument. *)
Fixpoint parse_rest_slots (pid : Z) (toks : list string) (info : shell_info)
         (arr : args_array) (i : nat) : result (args_array * shell_info) :=
  match toks with
  | [] => Ok (arr, info)
  | token :: rest =>
      if streq token "<" then
        let info := set_input_redirect 1 info in
        match rest with
        | [] => Fault NullPointer
        | token :: rest =>
            match strcpy_filename token with
            | Fault f => Fault f
            | Ok name =>
                parse_rest_slots pid rest (set_input_filename name info) arr i
            end
        end
      else if streq token ">" then
        let info := set_output_redirect 1 info in
        match rest with
        | [] => Fault NullPointer
        | token :: rest =>
            match strcpy_filename token with
            | Fault f => Fault f
            | Ok name =>
                parse_rest_slots pid rest (set_output_filename name info) arr i
            end
        end
      else if streq token "&" then
        parse_rest_slots pid rest (set_background 1 info) arr i
      else if streq token "$$" then
        match set_slot arr i (dec pid) with
        | Fault f => Fault f
        | Ok arr' => parse_rest_slots pid rest info arr' (S i)
        end
      else
        match set_slot arr i token with
        | Fault f => Fault f
        | Ok arr' => parse_rest_slots pid rest info arr' (S i)
        end
  end.

Definition parse_line_slots (pid : Z) (line : string) (info : shell_info)
           (arr : args_array) : result (args_array * shell_info) :=
  match tokens space line with
  | [] => Fault NullPointer
  | token :: rest =>
      match set_slot arr 0 token with
      | Fault f => Fault f
      | Ok arr' => parse_rest_slots pid rest info arr' 1
      end
  end.

(** The strings from [args[0]] to the first NULL: the vector that
    [execvp] and [print_args] walk through.  An array without a NULL is
    read past its end. *)
Fixpoint argv_of (arr : args_array) : result (list string) :=
  match arr with
  | [] => Fault BufferOverflow
  | None :: _ => Ok []
  | Some a :: rest =>
      match argv_of rest with
      | Ok l => Ok (a :: l)
      | Fault f => Fault f
      end
  end.

(** ** More to phrase statements with *)

(** The words with one space between them. *)
Fixpoint join (ws : list string) : string :=
  match ws with
  | [] => ""
  | [w] => w
  | w :: ws' => (w ++ String space (join ws'))%string
  end.

(** [c] does not occur in [s]. *)
Fixpoint lacks (c : ascii) (s : string) : bool :=
  match s with
  | EmptyString => true
  | String x s' => negb (Ascii.eqb x c) && lacks c s'
  end.

(** A token with at least one character and no space. *)
Definition is_word (s : string) : bool :=
  negb (streq s "") && lacks space s.

(** A token the loop of [parse_line] stores as it is. *)
Definition is_plain (t : string) : bool :=
  negb (streq t "<" || streq t ">" || streq t "&" || streq t "$$").

(** How a run that does not return ends. *)
Inductive ending : Type :=
| End_exit (code : Z)
| End_exec (file : string) (argv : list string)
| End_fault (f : fault).

(** [Q] holds of the value and state [m] returns with, or [R] of the way it
    ends otherwise. *)
Definition run_spec {A : Type} (m : M A) (Q : A -> proc -> Prop)
           (R : ending -> proc -> Prop) (p : proc) : Prop :=
  match m p with
  | (Val a, p') => Q a p'
  | (Exited c, p') => R (End_exit c) p'
  | (Execed f v, p') => R (End_exec f v) p'
  | (Faulted ft, p') => R (End_fault ft) p'
  end.

(** What of the shell only a signal handler or a child may change: the
    process identifier, [stop_background], the two dispositions and
    descriptors 0 and 1. *)
Definition shell_fixed (p : proc)
  : Z * Z * sighandler * sighandler * stream * stream :=
  (p_pid p, p_stop_background p, p_sigint p, p_sigtstp p, p_stdin p, p_stdout p).

Definition keeps {A B : Type} (f : proc -> B) (m : M A) : Prop :=
  forall p, f (snd (m p)) = f p.

(** The answers of [fork] that the shell itself gets: a failure, or the
    identifier of a child, which is neither 0 nor -1. *)
Definition in_shell (E : os) : Prop :=
  match os_fork E with
  | Fork_failed => True
  | In_child _ => False
  | In_parent c => c <> 0 /\ c <> -1
  end.

(** The status the last of the terminated children [zs] leaves in
    [info->exit_status]. *)
Definition last_status (zs : list (Z * Z)) (before : Z) : Z :=
  last (map snd zs) before.

(** A command with 512 arguments after it, and a file name of 256
    characters. *)
Definition line_of_513_words : string :=
  join ("echo" :: repeat "a" 511 ++ ["b"]).

Definition name_of_256 : string := string_of_list_ascii (repeat "a"%char 256).

(** The two notices of [handle_SIG]. *)
Definition entering_notice : string :=
  ("Entering foreground-only mode (& is now ignored) " ++ nl)%string.
Definition exiting_notice : string :=
  ("Exiting foreground-only mode " ++ nl)%string.

(** The write with which [fflush] empties a buffer holding [buf]. *)
Definition flushed (out : stream) (buf : string) : list event :=
  if streq buf "" then [] else [Ev_write out buf].

(** How a child may end, given the answers of the operating system: it
    runs [args[0]] with [args], which are fewer than 512; or leaves with 2
    after [execvp] has failed, with 1 after an [open] or a [dup2] onto
    descriptor 1 has failed, or with 0 after a [dup2] onto descriptor 0 has
    failed; or, the program found and all 512 slots of [args] taken, the
    argument vector is read past the array. *)
Definition child_ending (E : os) (args : list string) (e : ending) : Prop :=
  match e with
  | End_exec file argv =>
      file = hd "" args /\ argv = args /\ os_execvp E file argv = true
      /\ (List.length args < 512)%nat
  | End_exit code =>
      (code = 2 /\ os_execvp E (hd "" args) args = false)
      \/ (code = 1 /\ ((exists f m, os_open E f m = -1)
                       \/ exists fd, os_dup2 E fd 1 = -1))
      \/ (code = 0 /\ exists fd, os_dup2 E fd 0 = -1)
  | End_fault f =>
      f = BufferOverflow /\ os_execvp E (hd "" args) args = true
      /\ (512 <= List.length args)%nat
  end.

(** Every call succeeds but [execvp]. *)
Definition os_no_such_program (r : fork_result) : os :=
  mk_os r (fun _ _ => 3) (fun _ newfd => newfd) (fun _ _ => false)
        (fun _ => 0) (Some "/home/user") (fun _ => W_EXITCODE 2).

(** The words that [execute_cmd] handles itself. *)
Definition is_builtin (arg0 : string) : bool :=
  streq arg0 "exit" || streq arg0 "cd" || streq arg0 "status"
  || streq arg0 nl || starts_with_hash arg0.

(** * Properties *)

(** ** Tokens *)

Lemma skip_delims_length (d : ascii) (s : string) :
  (String.length (skip_delims d s) <= String.length s)%nat.
Proof.
  induction s as [|c s IH]; simpl; [lia|].
  destruct (Ascii.eqb c d); simpl; lia.
Qed.

Lemma take_token_length (d : ascii) (s t r : string) :
  take_token d s = (t, r) -> (String.length r <= String.length s)%nat.
Proof.
  revert t r; induction s as [|c s IH]; simpl; intros t r H.
  - inversion H; simpl; lia.
  - destruct (Ascii.eqb c d).
    + inversion H; subst; lia.
    + destruct (take_token d s) as [t' r'] eqn:Ht. inversion H; subst.
      specialize (IH _ _ eq_refl). lia.
Qed.

Lemma strtok_r_length (d : ascii) (s t r : string) :
  strtok_r d s = (Some t, r) -> (String.length r < String.length s)%nat.
Proof.
  unfold strtok_r. pose proof (skip_delims_length d s) as Hs.
  destruct (skip_delims d s) as [|c s'] eqn:Hk; [discriminate|].
  simpl. destruct (Ascii.eqb c d) eqn:Hc.
  - intros H; inversion H; subst. simpl in Hs. lia.
  - destruct (take_token d s') as [t' r'] eqn:Ht. intros H; inversion H; subst.
    apply take_token_length in Ht. simpl in Hs. lia.
Qed.

Lemma tokens_upto_stable (d : ascii) (n m : nat) :
  forall s, (String.length s < n)%nat -> (String.length s < m)%nat ->
            tokens_upto n d s = tokens_upto m d s.
Proof.
  revert m; induction n as [|n IH]; intros m s Hn Hm; [lia|].
  destruct m as [|m]; [lia|]. simpl.
  destruct (strtok_r d s) as [[t|] r] eqn:Hk; [|reflexivity].
  apply strtok_r_length in Hk. f_equal. apply IH; lia.
Qed.

(** [tokens] is the sequence of answers of [strtok_r]: the loop over it ends
    because [strtok_r] returned NULL, never because the bound was reached. *)
Lemma tokens_step (d : ascii) (s : string) :
  tokens d s = match strtok_r d s with
               | (None, _) => []
               | (Some t, r) => t :: tokens d r
               end.
Proof.
  unfold tokens at 1. simpl.
  destruct (strtok_r d s) as [[t|] r] eqn:Hk; [|reflexivity].
  apply strtok_r_length in Hk. f_equal. unfold tokens.
  apply tokens_upto_stable; lia.
Qed.

Lemma skip_delims_spaces (n : nat) : skip_delims space (spaces n) = "".
Proof. induction n as [|n IH]; simpl; [reflexivity|exact IH]. Qed.

Lemma tokens_spaces (n : nat) : tokens space (spaces n) = [].
Proof. rewrite tokens_step. unfold strtok_r. now rewrite skip_delims_spaces. Qed.

(** ** The parser *)

Lemma dec_not_amp (n : Z) : streq (dec n) "&" = false.
Proof.
  unfold dec, NilZero.string_of_int, NilZero.string_of_uint.
  destruct (Z.to_int n) as [d|d]; [|reflexivity].
  destruct d; reflexivity.
Qed.

Lemma push_arg_ok (args args' : list string) (a : string) :
  push_arg args a = Ok args' -> args' = args ++ [a].
Proof.
  unfold push_arg. destruct (ARGS_SIZE <=? Z.of_nat (List.length args)).
  - discriminate.
  - intros H; now inversion H.
Qed.

Lemma strcpy_filename_ok (t name : string) :
  strcpy_filename t = Ok name -> name = t.
Proof.
  unfold strcpy_filename. destruct (FILENAME_SIZE <=? strlen t).
  - discriminate.
  - intros H; now inversion H.
Qed.

(** What the loop of [parse_line] computes when it does not fault. *)
Lemma parse_rest_spec (pid : Z) (n : nat) :
  forall toks info args args' info',
    (List.length toks <= n)%nat ->
    parse_rest pid toks info args = Ok (args', info') ->
    args' = args ++ map (expand pid)
                        (filter (fun t => negb (is_amp t)) (command_words toks))
    /\ background info' =
       (if existsb is_amp (command_words toks) then 1 else background info)
    /\ exit_status info' = exit_status info.
Proof.
  induction n as [|n IH]; intros toks info args args' info' Hn H.
  - destruct toks; [|simpl in Hn; lia]. simpl in H. inversion H; subst.
    simpl. now rewrite app_nil_r.
  - destruct toks as [|t rest]; simpl in H.
    + inversion H; subst. simpl. now rewrite app_nil_r.
    + simpl in Hn. simpl command_words.
      destruct (streq t "<") eqn:Hlt; simpl.
      { destruct rest as [|name rest']; [discriminate|].
        destruct (strcpy_filename name) as [nm|f] eqn:Hc; [|discriminate].
        simpl in Hn. apply IH in H; [|lia]. exact H. }
      destruct (streq t ">") eqn:Hgt; simpl.
      { destruct rest as [|name rest']; [discriminate|].
        destruct (strcpy_filename name) as [nm|f] eqn:Hc; [|discriminate].
        simpl in Hn. apply IH in H; [|lia]. exact H. }
      destruct (streq t "&") eqn:Hamp;
        (assert (Hia : is_amp t = streq t "&") by reflexivity);
        rewrite Hia, Hamp; simpl.
      { apply IH in H; [|lia]. destruct H as (Ha & Hb & Hs).
        repeat split; auto.
        rewrite Hb. now destruct (existsb is_amp (command_words rest)). }
      unfold expand at 1.
      destruct (streq t "$$") eqn:Hpid.
      { destruct (push_arg args (dec pid)) as [a1|f] eqn:Hp; [|discriminate].
        apply push_arg_ok in Hp. subst a1.
        apply IH in H; [|lia]. destruct H as (Ha & Hb & Hs).
        repeat split; auto. rewrite Ha, <- app_assoc. reflexivity. }
      destruct (push_arg args t) as [a1|f] eqn:Hp; [|discriminate].
      apply push_arg_ok in Hp. subst a1.
      apply IH in H; [|lia]. destruct H as (Ha & Hb & Hs).
      repeat split; auto. rewrite Ha, <- app_assoc. reflexivity.
Qed.

Lemma expand_not_amp (pid : Z) (t : string) :
  is_amp t = false -> is_amp (expand pid t) = false.
Proof.
  unfold expand, is_amp. destruct (streq t "$$"); [|auto].
  intros _. apply dec_not_amp.
Qed.

(** C1, counterexample: in [ls & -la] the token [&] is the
    second of three, yet [background] is set and [&] is no argument. *)
Lemma amp_in_the_middle_sets_background :
  tokens space "ls & -la" = ["ls"; "&"; "-la"]
  /\ parse_line 4242 "ls & -la" (mk_shell_info 0 0 0 0 "" "")
     = Ok (["ls"; "-la"], mk_shell_info 1 0 0 0 "" "").
Proof. split; reflexivity. Qed.

(** C1, amended: [background] is set exactly when some token after the
    first, other than the file name that follows [<] or [>], is [&],
    wherever in the line it stands; the arguments are the first token and
    then the remaining command words in order, with [$$] replaced by the
    process identifier, and no [&] among them. *)
Theorem parse_line_background (pid : Z) (line : string)
        (info info' : shell_info) (args : list string) :
  parse_line pid line info = Ok (args, info') ->
  background info = 0 ->
  exists cmd rest,
    tokens space line = cmd :: rest
    /\ background info' = (if existsb is_amp (command_words rest) then 1 else 0)
    /\ args = cmd :: map (expand pid)
                         (filter (fun t => negb (is_amp t)) (command_words rest))
    /\ ~ In "&" (tl args).
Proof.
  unfold parse_line. intros H H0.
  destruct (tokens space line) as [|cmd rest]; [discriminate|].
  exists cmd, rest.
  apply (parse_rest_spec pid (List.length rest)) in H; [|lia].
  destruct H as (Ha & Hb & _). rewrite H0 in Hb.
  repeat split; auto.
  subst args. simpl. intros Hin. apply in_map_iff in Hin.
  destruct Hin as (t & Ht & Hin). apply filter_In in Hin.
  destruct Hin as (_ & Hn). apply negb_true_iff in Hn.
  apply (expand_not_amp pid) in Hn. rewrite Ht in Hn. discriminate.
Qed.

(** [sort < in.txt > out.txt &]. *)
Lemma parse_line_background_witness :
  exists cmd rest,
    tokens space "sort < in.txt > out.txt &" = cmd :: rest
    /\ background (mk_shell_info 1 0 1 1 "out.txt" "in.txt")
       = (if existsb is_amp (command_words rest) then 1 else 0)
    /\ ["sort"] = cmd :: map (expand 4242)
                             (filter (fun t => negb (is_amp t)) (command_words rest))
    /\ ~ In "&" (tl ["sort"]).
Proof.
  apply (parse_line_background 4242 "sort < in.txt > out.txt &"
                               (mk_shell_info 0 0 0 0 "" "")).
  - reflexivity.
  - reflexivity.
Defined.

(** ** Lines without a token *)

Lemma take_token_spaces_nl (n : nat) :
  take_token newline (spaces n ++ nl)%string = (spaces n, "").
Proof.
  induction n as [|n IH]; [reflexivity|].
  change (spaces (S n)) with (String space (spaces n)).
  simpl. now rewrite IH.
Qed.

Lemma chomp_spaces_nl (n : nat) :
  chomp (spaces (S n) ++ nl)%string = spaces (S n).
Proof.
  unfold chomp, strtok_r.
  change (spaces (S n) ++ nl)%string with (String space (spaces n ++ nl))%string.
  cbn [skip_delims]. change (Ascii.eqb space newline) with false. cbv iota.
  rewrite Nat.sub_diag.
  change (take_token newline (String space (spaces n ++ nl)))
    with (let (t, r) := take_token newline (spaces n ++ nl)%string in
          (String space t, r)).
  rewrite take_token_spaces_nl. reflexivity.
Qed.

(** C5: a line of one or more spaces makes [parse_line] hand the NULL that
    [strtok_r] returned to [strlen]; the round ends in a fault, before
    [execute_cmd], whatever the state of the shell. *)
Theorem shell_cycle_spaces_faults (E : os) (n : nat) (p : proc) :
  parse_line (p_pid p) (spaces (S n)) (init_shell_info (p_info p))
  = Fault NullPointer
  /\ fst (shell_cycle E (spaces (S n) ++ nl)%string p) = Faulted NullPointer.
Proof.
  assert (Hp : forall pid info,
             parse_line pid (spaces (S n)) info = Fault NullPointer).
  { intros. unfold parse_line. now rewrite tokens_spaces. }
  split; [apply Hp|].
  unfold shell_cycle, get_input, bind, modify, printf, fflush, ret, getpid,
    get, lift_result.
  cbn -[chomp parse_line spaces streq].
  rewrite chomp_spaces_nl, Hp. reflexivity.
Qed.

(** ** Failures in the child *)

Lemma input_redirection_outcome (E : os) (filename : string) (p : proc) :
  fst (input_redirection E filename p) =
  if os_open E filename O_RDONLY =? -1 then Exited 1
  else if os_dup2 E (os_open E filename O_RDONLY) 0 =? -1 then Exited 0
       else Val tt.
Proof.
  unfold input_redirection.
  destruct (os_open E filename O_RDONLY =? -1); [reflexivity|].
  destruct (os_dup2 E (os_open E filename O_RDONLY) 0 =? -1); reflexivity.
Qed.

Lemma output_redirection_outcome (E : os) (filename : string) (p : proc) :
  fst (output_redirection E filename p) =
  if os_open E filename O_WRONLY_CREAT_TRUNC =? -1 then Exited 1
  else if os_dup2 E (os_open E filename O_WRONLY_CREAT_TRUNC) 1 =? -1
       then Exited 1
       else Val tt.
Proof.
  unfold output_redirection.
  destruct (os_open E filename O_WRONLY_CREAT_TRUNC =? -1); [reflexivity|].
  destruct (os_dup2 E (os_open E filename O_WRONLY_CREAT_TRUNC) 1 =? -1);
    reflexivity.
Qed.

(** C2: the child of [cat < in.txt] in which [open] succeeds and [dup2]
    onto descriptor 0 fails leaves through [exit(0)]: it reports the failure
    and ends at once, but with the wait status of a success, where every
    other failure of a redirection ends the child with status 1. *)
Theorem input_rebind_failure_exits_zero :
  shell_cycle (os_dup2_stdin_fails (In_child 4300)) (typed "cat < in.txt")
              shell_at_prompt
  = (Exited 0,
     mk_proc 4300 (mk_shell_info 0 0 0 1 "" "in.txt") 0 SIG_DFL SIG_IGN
             Terminal Terminal "" [] []
             [Ev_perror "Input file could not be redirected"])
  /\ W_EXITCODE 0 = 0
  /\ (forall E filename p,
         fst (input_redirection E filename p) =
         if os_open E filename O_RDONLY =? -1 then Exited 1
         else if os_dup2 E (os_open E filename O_RDONLY) 0 =? -1 then Exited 0
              else Val tt)
  /\ (forall E filename p,
         fst (output_redirection E filename p) =
         if os_open E filename O_WRONLY_CREAT_TRUNC =? -1 then Exited 1
         else if os_dup2 E (os_open E filename O_WRONLY_CREAT_TRUNC) 1 =? -1
              then Exited 1
              else Val tt).
Proof.
  split; [reflexivity|]. split; [reflexivity|].
  split; [apply input_redirection_outcome|apply output_redirection_outcome].
Qed.

(** ** The status of the last foreground process *)

(** C3: a background child has ended with [exit(0)]; then [false] runs in
    the foreground, ends with [exit(1)], and is reported with
    [exit value 1]; the sweep of the same round stores the status of the
    background child in [info->exit_status], and the [status] entered next
    prints [exit value 0]. *)
Theorem status_reports_reaped_background_child :
  p_trace (snd (shell_loop
                  [(os_4301_fails (In_parent 4301), typed "false");
                   (os_fine Fork_failed, typed "status")]
                  shell_with_ended_job))
  = p_trace shell_with_ended_job
    ++ [Ev_write Terminal ": ";
        Ev_waitpid 4301 0 4301;
        Ev_write Terminal (typed "exit value 1 ");
        Ev_waitpid (-1) WNOHANG 4300;
        Ev_write Terminal "background pid 4300 is done: ";
        Ev_write Terminal (typed "exit value 0 ");
        Ev_waitpid (-1) WNOHANG (-1);
        Ev_write Terminal ": ";
        Ev_write Terminal (typed "exit value 0 ");
        Ev_waitpid (-1) WNOHANG (-1)]
  /\ exit_status
       (p_info (snd (shell_cycle (os_4301_fails (In_parent 4301)) (typed "false")
                                 shell_with_ended_job)))
     = W_EXITCODE 0.
Proof. split; reflexivity. Qed.

(** ** The two evaluations of the background test *)

(** At the moment of [fork] the two processes hold the same values. *)
Lemma background_test_child_of (own : Z) (p : proc) :
  background_test (child_of own p) = background_test p.
Proof. reflexivity. Qed.

(** C4: [sleep 5 &] outside foreground-only mode.  The child finds
    [stop_background] zero and sets itself up as a background process; the
    terminal-stop signal reaches the shell after [fork] has returned, its
    handler sets [stop_background], and the shell, evaluating the test for
    its part, waits for the child without [WNOHANG]. *)
Theorem child_and_parent_disagree :
  other_cmd (os_fine (In_child 4300)) ["sleep"; "5"] shell_before_sleep_5
  = (Execed "sleep" ["sleep"; "5"],
     mk_proc 4300 (mk_shell_info 1 0 0 0 "" "") 0 SIG_IGN SIG_IGN
             (File "/dev/null") (File "/dev/null") "" [] []
             [Ev_write Terminal (typed "background pid is 4300 ")])
  /\ other_cmd_SIGTSTP_after_fork (os_fine (In_parent 4300)) ["sleep"; "5"]
                                  shell_before_sleep_5
     = (Val tt,
        mk_proc 4242 (mk_shell_info 1 0 0 0 "" "") 1 SIG_IGN Handler_handle_SIG
                Terminal Terminal "" [] []
                [Ev_write Terminal (typed "smallsh ");
                 Ev_write Terminal
                          (typed "Entering foreground-only mode (& is now ignored) ");
                 Ev_waitpid 4300 0 4300]).
Proof. split; reflexivity. Qed.

(** ** Rules for [wp] *)

Section Wp.
Context {A B : Type}.
Variable X : proc -> Prop.

Lemma wp_bind (m : M A) (k : A -> M B) (Q : B -> proc -> Prop) (p : proc) :
  wp m (fun a p' => wp (k a) Q X p') X p -> wp (bind m k) Q X p.
Proof. unfold wp, bind. destruct (m p) as [[a|c|f v|ft] p']; auto. Qed.

Lemma wp_ret (a : A) (Q : A -> proc -> Prop) (p : proc) :
  Q a p -> wp (ret a) Q X p.
Proof. auto. Qed.

Lemma wp_get (f : proc -> A) (Q : A -> proc -> Prop) (p : proc) :
  Q (f p) p -> wp (get f) Q X p.
Proof. auto. Qed.

Lemma wp_exit (code : Z) (Q : A -> proc -> Prop) (p : proc) :
  wp (c_exit code) Q X p.
Proof. exact I. Qed.

Lemma wp_execed (m : M A) (Q : A -> proc -> Prop) (p p' : proc)
      (file : string) (argv : list string) :
  wp m Q X p -> m p = (Execed file argv, p') -> X p'.
Proof. unfold wp. intros H Hm. now rewrite Hm in H. Qed.
End Wp.

Section WpUnit.
Variable X : proc -> Prop.
Variable Q : unit -> proc -> Prop.

Lemma wp_modify (f : proc -> proc) (p : proc) :
  Q tt (f p) -> wp (modify f) Q X p.
Proof. auto. Qed.

Lemma wp_when (b : bool) (m : M unit) (p : proc) :
  (b = true -> wp m Q X p) -> (b = false -> Q tt p) -> wp (when b m) Q X p.
Proof. destruct b; cbn; auto. Qed.

Lemma wp_input_redirection (E : os) (filename : string) (p : proc) :
  Q tt (with_stdin (File filename) p) ->
  wp (input_redirection E filename) Q X p.
Proof.
  intros H. unfold wp, input_redirection.
  destruct (os_open E filename O_RDONLY =? -1); [exact I|].
  destruct (os_dup2 E (os_open E filename O_RDONLY) 0 =? -1); [exact I|].
  exact H.
Qed.

Lemma wp_output_redirection (E : os) (filename : string) (p : proc) :
  Q tt (with_stdout (File filename) p) ->
  wp (output_redirection E filename) Q X p.
Proof.
  intros H. unfold wp, output_redirection.
  destruct (os_open E filename O_WRONLY_CREAT_TRUNC =? -1); [exact I|].
  destruct (os_dup2 E (os_open E filename O_WRONLY_CREAT_TRUNC) 1 =? -1);
    [exact I|].
  exact H.
Qed.
End WpUnit.

Lemma wp_execvp (E : os) (file : string) (argv : list string)
      (Q : Z -> proc -> Prop) (X : proc -> Prop) (p : proc) :
  X p -> Q (-1) p -> wp (execvp E file argv) Q X p.
Proof.
  unfold wp, execvp. destruct (os_execvp E file argv); auto.
  destruct (ARGS_SIZE <=? Z.of_nat (List.length argv)); auto.
Qed.

(** ** The child before [execvp] *)

(** The redirections the command asks for, then [execvp]: the tail of the
    child's branch. *)
Lemma wp_redirect_and_exec (E : os) (args : list string) (X : proc -> Prop)
      (p : proc) :
  X (with_stdout
       (if negb (output_redirect (p_info p) =? 0)
        then File (output_filename (p_info p)) else p_stdout p)
       (with_stdin
          (if negb (input_redirect (p_info p) =? 0)
           then File (input_filename (p_info p)) else p_stdin p) p)) ->
  wp (info <- get p_info ;;
      when (negb (input_redirect info =? 0))
           (input_redirection E (input_filename info)) ;;
      when (negb (output_redirect info =? 0))
           (output_redirection E (output_filename info)) ;;
      execvp E (hd "" args) args ;;
      perror "execvp" ;;
      (c_exit 2 : M unit)) (fun _ _ => True) X p.
Proof.
  intros H. apply wp_bind, wp_get.
  destruct (negb (input_redirect (p_info p) =? 0)) eqn:Hin;
    destruct (negb (output_redirect (p_info p) =? 0)) eqn:Hout;
    cbn [when].
  - apply wp_bind, wp_input_redirection, wp_bind, wp_output_redirection.
    apply wp_bind, wp_execvp; [exact H|]. apply wp_bind. exact I.
  - apply wp_bind, wp_input_redirection, wp_bind, wp_ret.
    apply wp_bind, wp_execvp; [|apply wp_bind; exact I].
    destruct p; exact H.
  - apply wp_bind, wp_ret, wp_bind, wp_output_redirection.
    apply wp_bind, wp_execvp; [|apply wp_bind; exact I].
    destruct p; exact H.
  - apply wp_bind, wp_ret, wp_bind, wp_ret.
    apply wp_bind, wp_execvp; [|apply wp_bind; exact I].
    destruct p; exact H.
Qed.

Lemma wp_fflush (Q : unit -> proc -> Prop) (X : proc -> Prop) (p : proc) :
  Q tt p ->
  Q tt (with_buffer "" (log (Ev_write (p_stdout p) (p_buffer p)) p)) ->
  wp fflush Q X p.
Proof.
  intros H1 H2. unfold wp, fflush, modify. destruct (streq (p_buffer p) ""); auto.
Qed.

(** The state in which the child calls [execvp], when it gets that far. *)
Lemma child_exec_state (E : os) (args : list string) (p p' : proc)
      (own : Z) (file : string) (argv : list string) :
  other_cmd (with_fork (In_child own) E) args p = (Execed file argv, p') ->
  p_sigtstp p' = SIG_IGN
  /\ p_sigint p' = (if background_test p then p_sigint p else SIG_DFL)
  /\ p_stdin p' =
     (if negb (input_redirect (p_info p) =? 0)
      then File (input_filename (p_info p))
      else if background_test p then File "/dev/null" else p_stdin p)
  /\ p_stdout p' =
     (if negb (output_redirect (p_info p) =? 0)
      then File (output_filename (p_info p))
      else if background_test p then File "/dev/null" else p_stdout p).
Proof.
  intros Hrun.
  set (X := fun q : proc =>
              p_sigtstp q = SIG_IGN
              /\ p_sigint q = (if background_test p then p_sigint p else SIG_DFL)
              /\ p_stdin q =
                 (if negb (input_redirect (p_info p) =? 0)
                  then File (input_filename (p_info p))
                  else if background_test p then File "/dev/null" else p_stdin p)
              /\ p_stdout q =
                 (if negb (output_redirect (p_info p) =? 0)
                  then File (output_filename (p_info p))
                  else if background_test p then File "/dev/null"
                       else p_stdout p)).
  change (X p').
  apply (wp_execed X (other_cmd (with_fork (In_child own) E) args)
                   (fun _ _ => True) p p' file argv); [|exact Hrun].
  unfold other_cmd. apply wp_bind. unfold wp at 1, fork.
  cbn [with_fork os_fork]. unfold other_cmd_switch. cbn [Z.eqb].
  apply wp_bind. unfold custom_IG, sigaction. apply wp_modify.
  apply wp_bind, wp_get.
  change (background_test (with_sigtstp SIG_IGN (child_of own p)))
    with (background_test p).
  destruct (background_test p) eqn:Hbg.
  - apply wp_bind. apply wp_bind, wp_get. apply wp_bind, wp_modify.
    apply wp_bind, wp_fflush; apply wp_bind, wp_get;
      cbn [p_info with_buffer log with_sigtstp child_of];
      (destruct (output_redirect (p_info p) =? 0) eqn:Hout;
       destruct (input_redirect (p_info p) =? 0) eqn:Hin; cbn [when]).
    all: apply wp_bind;
      [apply wp_output_redirection || apply wp_ret ..];
      [apply wp_input_redirection || apply wp_ret ..].
    all: apply wp_redirect_and_exec; unfold X; cbn;
      rewrite ?Hout, ?Hin, ?Hbg; cbn; auto.
  - apply wp_bind. unfold sigaction. apply wp_modify.
    apply wp_redirect_and_exec; unfold X; cbn; rewrite ?Hbg.
    destruct (negb (input_redirect (p_info p) =? 0));
      destruct (negb (output_redirect (p_info p) =? 0)); auto.
Qed.

(** ** Printing *)

Lemma streq_append_nonempty (a b : string) (c : ascii) :
  streq (a ++ String c b)%string "" = false.
Proof. destruct a; reflexivity. Qed.

(** [printf] of a text that is not empty, then [fflush]: one write of the
    buffer and the text. *)
Lemma printf_fflush (c : ascii) (text : string) (p : proc) :
  (printf (String c text) ;; fflush) p
  = (Val tt,
     with_buffer "" (log (Ev_write (p_stdout p) (p_buffer p ++ String c text)%string) p)).
Proof.
  unfold bind, printf, fflush, modify. cbn.
  now rewrite streq_append_nonempty.
Qed.

Lemma my_status_run (status : Z) (p : proc) :
  my_status status p
  = (Val tt,
     with_buffer ""
       (log (Ev_write (p_stdout p) (p_buffer p ++ status_text status)%string) p)).
Proof.
  unfold my_status, status_text.
  destruct (WIFEXITED status); apply printf_fflush.
Qed.

Lemma bind_val {A B : Type} (m : M A) (k : A -> M B) (p p1 : proc) (a : A) :
  m p = (Val a, p1) -> bind m k p = k a p1.
Proof. unfold bind. now intros ->. Qed.

(** ** The shell after [fork] *)

Lemma is_running_head (c : Z) (l : list Z) : is_running c (c :: l) = true.
Proof. unfold is_running. simpl. now rewrite Z.eqb_refl. Qed.

Lemma remove_pid_head (c : Z) (l : list Z) : remove_pid c (c :: l) = l.
Proof. simpl. now rewrite Z.eqb_refl. Qed.

(** A wait without [WNOHANG] for the child just started returns that child. *)
Lemma waitpid_blocking_new_child (E : os) (c : Z) (p : proc) :
  c <> -1 ->
  exists p1,
    waitpid E c 0 (with_children (c :: p_running p) (p_zombies p) p)
    = (Val c, p1)
    /\ p_trace p1 = p_trace p ++ [Ev_waitpid c 0 c]
    /\ p_stdout p1 = p_stdout p /\ p_buffer p1 = p_buffer p.
Proof.
  intros Hc. unfold waitpid, waitpid_answer.
  rewrite (proj2 (Z.eqb_neq c (-1)) Hc).
  cbn [p_zombies p_running with_children].
  destruct (find_zombie c (p_zombies p)) as [[st zs]|].
  - eexists; split; [reflexivity|]. cbn. auto.
  - rewrite is_running_head. change (0 =? WNOHANG) with false. cbv iota.
    eexists; split; [reflexivity|]. cbn. auto.
Qed.

(** A wait with [WNOHANG] for the child just started. *)
Lemma waitpid_nohang_new_child (E : os) (c : Z) (p : proc) :
  c <> -1 ->
  exists r p1,
    waitpid E c WNOHANG (with_children (c :: p_running p) (p_zombies p) p)
    = (Val r, p1)
    /\ p_trace p1 = p_trace p ++ [Ev_waitpid c WNOHANG r]
    /\ p_stdout p1 = p_stdout p /\ p_buffer p1 = p_buffer p.
Proof.
  intros Hc. unfold waitpid, waitpid_answer.
  rewrite (proj2 (Z.eqb_neq c (-1)) Hc).
  cbn [p_zombies p_running with_children].
  destruct (find_zombie c (p_zombies p)) as [[st zs]|].
  - do 2 eexists; split; [reflexivity|]. cbn. auto.
  - rewrite is_running_head. change (WNOHANG =? WNOHANG) with true. cbv iota.
    do 2 eexists; split; [reflexivity|]. cbn. auto.
Qed.

Lemma other_cmd_in_parent (E : os) (args : list string) (c : Z) (p : proc) :
  c <> -1 -> c <> 0 ->
  other_cmd (with_fork (In_parent c) E) args p
  = (if background_test p then
       waitpid (with_fork (In_parent c) E) c WNOHANG ;; ret tt
     else
       waitpid (with_fork (In_parent c) E) c 0 ;;
       info <- get p_info ;;
       when (negb (exit_status info =? 0)) (my_status (exit_status info)))
      (with_children (c :: p_running p) (p_zombies p) p).
Proof.
  intros H1 H0. unfold other_cmd, fork, bind at 1. cbn [with_fork os_fork].
  unfold other_cmd_switch.
  rewrite (proj2 (Z.eqb_neq c (-1)) H1), (proj2 (Z.eqb_neq c 0) H0).
  reflexivity.
Qed.

(** ** The trace only grows *)

Lemma grows_ret {A : Type} (a : A) : grows (ret a).
Proof. intros p. exists []. cbn. now rewrite app_nil_r. Qed.

Lemma grows_get {A : Type} (f : proc -> A) : grows (get f).
Proof. intros p. exists []. cbn. now rewrite app_nil_r. Qed.

Lemma grows_bind {A B : Type} (m : M A) (k : A -> M B) :
  grows m -> (forall a, grows (k a)) -> grows (bind m k).
Proof.
  intros Hm Hk p. unfold bind. destruct (Hm p) as [t Ht].
  destruct (m p) as [[a|c|f v|ft] p1]; cbn in Ht |- *; try (now exists t).
  destruct (Hk a p1) as [t' Ht']. exists (t ++ t').
  now rewrite Ht', Ht, app_assoc.
Qed.

Lemma grows_modify (f : proc -> proc) :
  (forall p, exists t, p_trace (f p) = p_trace p ++ t) -> grows (modify f).
Proof. intros H p. exact (H p). Qed.

Lemma grows_fflush : grows fflush.
Proof.
  apply grows_modify. intros p. destruct (streq (p_buffer p) "").
  - exists []. now rewrite app_nil_r.
  - eexists. reflexivity.
Qed.

Lemma grows_perror (msg : string) : grows (perror msg).
Proof. apply grows_modify. intros p. eexists. reflexivity. Qed.

Lemma grows_exit {A : Type} (code : Z) : grows (@c_exit A code).
Proof. intros p. destruct (grows_fflush p) as [t Ht]. exists t. exact Ht. Qed.

Lemma grows_when (b : bool) (m : M unit) : grows m -> grows (when b m).
Proof. destruct b; [auto|]. intros _. apply grows_ret. Qed.

Lemma grows_input_redirection (E : os) (filename : string) :
  grows (input_redirection E filename).
Proof.
  unfold input_redirection.
  destruct (os_open E filename O_RDONLY =? -1).
  - apply grows_bind; [apply grows_perror|intros; apply grows_exit].
  - destruct (os_dup2 E (os_open E filename O_RDONLY) 0 =? -1).
    + apply grows_bind; [apply grows_perror|intros; apply grows_exit].
    + apply grows_modify. intros p. exists []. cbn. now rewrite app_nil_r.
Qed.

Lemma grows_output_redirection (E : os) (filename : string) :
  grows (output_redirection E filename).
Proof.
  unfold output_redirection.
  destruct (os_open E filename O_WRONLY_CREAT_TRUNC =? -1).
  - apply grows_bind; [apply grows_perror|intros; apply grows_exit].
  - destruct (os_dup2 E (os_open E filename O_WRONLY_CREAT_TRUNC) 1 =? -1).
    + apply grows_bind; [apply grows_perror|intros; apply grows_exit].
    + apply grows_modify. intros p. exists []. cbn. now rewrite app_nil_r.
Qed.

Lemma grows_execvp (E : os) (file : string) (argv : list string) :
  grows (execvp E file argv).
Proof.
  intros p. unfold execvp. exists [].
  destruct (os_execvp E file argv);
    [destruct (ARGS_SIZE <=? Z.of_nat (List.length argv))|];
    cbn; now rewrite app_nil_r.
Qed.

Create HintDb grows.
#[local] Hint Resolve grows_ret grows_get grows_bind grows_fflush grows_perror
  grows_exit grows_when grows_input_redirection grows_output_redirection
  grows_execvp : grows.

Lemma bind_modify {B : Type} (f : proc -> proc) (k : unit -> M B) (p : proc) :
  bind (modify f) k p = k tt (f p).
Proof. reflexivity. Qed.

Lemma bind_get {A B : Type} (f : proc -> A) (k : A -> M B) (p : proc) :
  bind (get f) k p = k (f p) p.
Proof. reflexivity. Qed.

Lemma bind_bind {A B C : Type} (m : M A) (f : A -> M B) (g : B -> M C)
      (p : proc) :
  bind (bind m f) g p = bind m (fun a => bind (f a) g) p.
Proof. unfold bind. destruct (m p) as [[a|c|fl v|ft] p1]; reflexivity. Qed.

(** The first thing a child that finds the background test true does after
    ignoring the terminal-stop signal is to write its own identifier. *)
Lemma background_child_trace (E : os) (args : list string) (p : proc)
      (own : Z) :
  background_test p = true ->
  exists tail,
    p_trace (snd (other_cmd (with_fork (In_child own) E) args p))
    = Ev_write (p_stdout p)
               (p_buffer p ++ "background pid is " ++ dec own ++ " " ++ nl)%string
      :: tail.
Proof.
  intros Hbg. unfold other_cmd, fork, bind at 1. cbn [with_fork os_fork].
  unfold other_cmd_switch. cbn [Z.eqb].
  unfold custom_IG, sigaction. rewrite bind_modify, bind_get.
  change (background_test (with_sigtstp SIG_IGN (child_of own p)))
    with (background_test p).
  rewrite Hbg. rewrite bind_bind. unfold getpid. rewrite bind_get.
  rewrite bind_bind. unfold printf at 1. rewrite bind_modify.
  rewrite bind_bind. unfold fflush at 1. rewrite bind_modify.
  cbn [p_buffer p_stdout p_pid with_buffer with_sigtstp child_of String.append].
  rewrite streq_append_nonempty.
  match goal with
  | |- exists tail, p_trace (snd (?m ?s)) = _ =>
      assert (G : grows m) by auto 20 with grows;
      destruct (G s) as [t Ht]
  end.
  exists t. rewrite Ht. reflexivity.
Qed.

(** ** Background and foreground launches *)

(** C6, counterexample: the shell that starts [sleep 5 &] writes its
    prompt and nothing else, and nothing is left in its buffer; the
    identifier of the new process is written by that process. *)
Lemma shell_does_not_print_background_pid :
  shell_cycle (os_fine (In_parent 4300)) (typed "sleep 5 &") shell_at_prompt
  = (Val 1,
     mk_proc 4242 (mk_shell_info 1 0 0 0 "" "") 0 SIG_IGN Handler_handle_SIG
             Terminal Terminal "" [4300] []
             [Ev_write Terminal (typed "smallsh ");
              Ev_write Terminal ": ";
              Ev_waitpid 4300 WNOHANG 0;
              Ev_waitpid (-1) WNOHANG 0])
  /\ p_trace (snd (shell_cycle (os_fine (In_child 4300)) (typed "sleep 5 &")
                               shell_at_prompt))
     = [Ev_write Terminal (typed "background pid is 4300 ")].
Proof. split; reflexivity. Qed.

(** [waitpid] returns, logs its call and leaves the stdio buffer alone. *)
Lemma waitpid_run (E : os) (pid options : Z) (p : proc) :
  exists r p',
    waitpid E pid options p = (Val r, p')
    /\ p_trace p' = p_trace p ++ [Ev_waitpid pid options r]
    /\ p_buffer p' = p_buffer p.
Proof.
  unfold waitpid.
  destruct (waitpid_answer E pid options p) as [[[r [st|]] running] zombies];
    do 2 eexists; split; try reflexivity; split; reflexivity.
Qed.

(** The child's branch of the [switch], entered in state [q] by a process
    that finds the background test true. *)
Lemma background_child_switch_trace (E : os) (args : list string) (q : proc) :
  background_test q = true ->
  exists tail,
    p_trace (snd (other_cmd_switch E args 0 q))
    = p_trace q
      ++ Ev_write (p_stdout q)
                  (p_buffer q ++ "background pid is " ++ dec (p_pid q) ++ " " ++ nl)%string
      :: tail.
Proof.
  intros Hbg. unfold other_cmd_switch. cbn [Z.eqb].
  unfold custom_IG, sigaction. rewrite bind_modify, bind_get.
  change (background_test (with_sigtstp SIG_IGN q)) with (background_test q).
  rewrite Hbg. rewrite bind_bind. unfold getpid. rewrite bind_get.
  rewrite bind_bind. unfold printf at 1. rewrite bind_modify.
  rewrite bind_bind. unfold fflush at 1. rewrite bind_modify.
  cbn [p_buffer p_stdout p_pid with_buffer with_sigtstp String.append].
  rewrite streq_append_nonempty.
  match goal with
  | |- exists tail, p_trace (snd (?m ?s)) = _ =>
      assert (G : grows m) by auto 20 with grows;
      destruct (G s) as [t Ht]
  end.
  exists t. rewrite Ht. cbn [p_trace with_buffer log with_sigtstp].
  now rewrite <- app_assoc.
Qed.

(** C6, amended: each process evaluates the background test for itself
    when it enters the [switch].  A parent that finds it true does one
    thing: it calls [waitpid] for the new child with [WNOHANG]; it writes
    nothing and leaves nothing in its stdio buffer.  A child that finds it
    true writes, before any redirection and before anything else,
    [background pid is] and its own identifier to the standard output it
    inherited. *)
Theorem background_launch (E : os) (args : list string) (q : proc) (c : Z) :
  background_test q = true -> c <> -1 -> c <> 0 ->
  (exists r q',
      waitpid E c WNOHANG q = (Val r, q')
      /\ other_cmd_switch E args c q = (Val tt, q')
      /\ p_trace q' = p_trace q ++ [Ev_waitpid c WNOHANG r]
      /\ p_buffer q' = p_buffer q)
  /\ (exists tail,
         p_trace (snd (other_cmd_switch E args 0 q))
         = p_trace q
           ++ Ev_write (p_stdout q)
                       (p_buffer q ++ "background pid is " ++ dec (p_pid q)
                                   ++ " " ++ nl)%string
           :: tail).
Proof.
  intros Hbg H1 H0. split; [|now apply background_child_switch_trace].
  destruct (waitpid_run E c WNOHANG q) as (r & q' & Hw & Ht & Hb).
  exists r, q'. split; [exact Hw|]. split; [|split; assumption].
  unfold other_cmd_switch.
  rewrite (proj2 (Z.eqb_neq c (-1)) H1), (proj2 (Z.eqb_neq c 0) H0).
  rewrite bind_get, Hbg. now rewrite (bind_val _ _ _ _ _ Hw).
Qed.

(** [sleep 5 &] outside foreground-only mode: the shell and the child, each
    in the state in which [fork] leaves it. *)
Lemma background_launch_witness :
  (exists r q',
      waitpid (os_fine (In_parent 4300)) 4300 WNOHANG
              (with_children [4300] [] shell_before_sleep_5) = (Val r, q')
      /\ other_cmd_switch (os_fine (In_parent 4300)) ["sleep"; "5"] 4300
                          (with_children [4300] [] shell_before_sleep_5)
         = (Val tt, q')
      /\ p_trace q' = p_trace (with_children [4300] [] shell_before_sleep_5)
                      ++ [Ev_waitpid 4300 WNOHANG r]
      /\ p_buffer q' = p_buffer (with_children [4300] [] shell_before_sleep_5))
  /\ (exists tail,
         p_trace (snd (other_cmd_switch (os_fine (In_parent 4300))
                                        ["sleep"; "5"] 0
                                        (with_children [4300] []
                                                       shell_before_sleep_5)))
         = p_trace (with_children [4300] [] shell_before_sleep_5)
           ++ Ev_write (p_stdout (with_children [4300] [] shell_before_sleep_5))
                       (p_buffer (with_children [4300] [] shell_before_sleep_5)
                        ++ "background pid is "
                        ++ dec (p_pid (with_children [4300] []
                                                     shell_before_sleep_5))
                        ++ " " ++ nl)%string
           :: tail).
Proof.
  apply (background_launch (os_fine (In_parent 4300)) ["sleep"; "5"]
                           (with_children [4300] [] shell_before_sleep_5) 4300).
  - reflexivity.
  - discriminate.
  - discriminate.
Defined.

Lemma background_test_false (p : proc) :
  p_stop_background p <> 0 -> background_test p = false.
Proof.
  intros H. unfold background_test.
  rewrite (proj2 (Z.eqb_neq _ _) H). apply andb_false_r.
Qed.

(** When no signal handler runs between [fork] and the two evaluations of
    the test, a request made while [stop_background] is set is run in the
    foreground: the shell waits for the new child without [WNOHANG],
    [waitpid] returns that child, and no other wait belongs to the command;
    in the child, when it calls [execvp], the disposition of SIGINT is the
    default one. *)
Lemma foreground_only_mode_undisturbed (E : os) (args : list string)
      (p : proc) (c : Z) :
  p_stop_background p <> 0 -> c <> -1 -> c <> 0 ->
  (exists p' tail,
      other_cmd (with_fork (In_parent c) E) args p = (Val tt, p')
      /\ p_trace p' = p_trace p ++ Ev_waitpid c 0 c :: tail
      /\ existsb is_wait tail = false)
  /\ (forall own file argv p',
         other_cmd (with_fork (In_child own) E) args p = (Execed file argv, p') ->
         p_sigint p' = SIG_DFL).
Proof.
  intros Hstop H1 H0. pose proof (background_test_false p Hstop) as Hbg.
  split.
  - rewrite other_cmd_in_parent, Hbg by assumption.
    destruct (waitpid_blocking_new_child (with_fork (In_parent c) E) c p H1)
      as (p1 & Hw & Ht & Hout & Hbuf).
    rewrite (bind_val _ _ _ _ _ Hw), bind_get.
    destruct (negb (exit_status (p_info p1) =? 0)); cbn [when].
    + rewrite my_status_run. do 2 eexists. split; [reflexivity|].
      cbn [p_trace with_buffer log]. rewrite Ht, <- app_assoc.
      split; reflexivity.
    + exists p1, []. cbn. auto.
  - intros own file argv p' Hrun.
    apply child_exec_state in Hrun. rewrite Hbg in Hrun. tauto.
Qed.

(** C7: [sleep 5 &] entered in foreground-only mode.  The child finds
    [stop_background] set and sets itself up as a foreground process (SIGINT
    at its default, descriptors 0 and 1 on the terminal, no line with its
    identifier).  The terminal-stop signal reaches the shell after [fork]
    has returned; [handle_SIG] clears [stop_background] and the shell,
    evaluating the test for its part, calls [waitpid] with [WNOHANG], which
    returns 0, and goes on to its prompt while the child still runs: the
    request is not waited for. *)
Theorem foreground_only_request_not_waited_for :
  other_cmd (os_fine (In_child 4300)) ["sleep"; "5"] shell_foreground_only
  = (Execed "sleep" ["sleep"; "5"],
     mk_proc 4300 (mk_shell_info 1 0 0 0 "" "") 1 SIG_DFL SIG_IGN
             Terminal Terminal "" [] [] [])
  /\ other_cmd_SIGTSTP_after_fork (os_fine (In_parent 4300)) ["sleep"; "5"]
                                  shell_foreground_only
     = (Val tt,
        mk_proc 4242 (mk_shell_info 1 0 0 0 "" "") 0 SIG_IGN Handler_handle_SIG
                Terminal Terminal "" [4300] []
                [Ev_write Terminal (typed "smallsh ");
                 Ev_write Terminal (typed "Exiting foreground-only mode ");
                 Ev_waitpid 4300 WNOHANG 0]).
Proof. split; reflexivity. Qed.



(** ** The reap sweep *)

Lemma grows_printf (text : string) : grows (printf text).
Proof. apply grows_modify. intros p. exists []. cbn. now rewrite app_nil_r. Qed.

Lemma grows_waitpid (E : os) (pid options : Z) : grows (waitpid E pid options).
Proof.
  intros p. unfold waitpid.
  destruct (waitpid_answer E pid options p) as [[[r [st|]] running] zombies];
    eexists; reflexivity.
Qed.

Lemma grows_my_status (status : Z) : grows (my_status status).
Proof. intros p. rewrite my_status_run. eexists. reflexivity. Qed.

#[local] Hint Resolve grows_printf grows_waitpid grows_my_status : grows.

Lemma grows_sweep_loop (E : os) (fuel : nat) : grows (sweep_loop E fuel).
Proof.
  induction fuel as [|fuel IH]; simpl; [apply grows_ret|].
  apply grows_bind; [apply grows_waitpid|]. intros corpse.
  destruct (corpse >? 0); auto 10 with grows.
Qed.

Lemma grows_sweep (E : os) : grows (sweep E).
Proof. intros p. apply grows_sweep_loop. Qed.

(** One round of the loop that finds a terminated child. *)
Lemma sweep_round (E : os) (fuel : nat) (p : proc) (c st : Z)
      (zs : list (Z * Z)) :
  p_zombies p = (c, st) :: zs -> c > 0 ->
  sweep_loop E (S fuel) p
  = sweep_loop E fuel
      (with_buffer ""
         (log (Ev_write (p_stdout p) (status_text st))
            (with_buffer ""
               (log (Ev_write (p_stdout p)
                       (p_buffer p ++ "background pid " ++ dec c ++ " is done: ")%string)
                  (log (Ev_waitpid (-1) WNOHANG c)
                     (with_info (set_exit_status st)
                        (with_children (p_running p) zs p))))))).
Proof.
  intros Hz Hc. cbn [sweep_loop]. unfold bind at 1, waitpid, waitpid_answer.
  change (-1 =? -1) with true. cbv iota. rewrite Hz.
  rewrite (proj2 (Z.gtb_gt c 0)) by lia.
  rewrite <- bind_bind.
  cbn [String.append].
  unfold bind at 1. rewrite printf_fflush.
  rewrite bind_get. unfold bind at 1. rewrite my_status_run.
  reflexivity.
Qed.


Lemma reports_nil (out : stream) (buf : string) : reports out buf [] = [].
Proof. reflexivity. Qed.


Lemma bind_ret {A B : Type} (a : A) (k : A -> M B) (p : proc) :
  bind (ret a) k p = k a p.
Proof. reflexivity. Qed.




(** ** [exit_status] across rounds *)

Lemma parse_line_exit_status (pid : Z) (text : string)
      (info info' : shell_info) (args : list string) :
  parse_line pid text info = Ok (args, info') ->
  exit_status info' = exit_status info.
Proof.
  unfold parse_line. destruct (tokens space text) as [|cmd rest]; [discriminate|].
  intros H. apply (parse_rest_spec pid (List.length rest)) in H; [|lia].
  tauto.
Qed.

(** A round in which the user enters [status]. *)
Lemma status_round (E : os) (p : proc) :
  exists tail,
    p_trace (snd (shell_cycle E (typed "status") p))
    = p_trace p
      ++ Ev_write (p_stdout p) (p_buffer p ++ ": ")%string
      :: Ev_write (p_stdout p) (status_text (exit_status (p_info p)))
      :: tail.
Proof.
  unfold shell_cycle, get_input.
  rewrite bind_modify, !bind_bind. unfold printf at 1. rewrite bind_modify.
  rewrite bind_bind. unfold fflush at 1. rewrite bind_modify.
  cbn [p_buffer with_buffer with_info]. rewrite streq_append_nonempty.
  rewrite bind_ret. unfold getpid. rewrite !bind_get.
  change (chomp (typed "status")) with "status".
  change (parse_line ?a "status" ?b) with (Ok (["status"], b)).
  unfold lift_result at 1. unfold bind at 1. rewrite bind_modify.
  cbn [fst snd]. unfold execute_cmd. rewrite !bind_bind.
  change (dispatch E ["status"])
    with (info <- get p_info ;; my_status (exit_status info) ;; ret 1).
  rewrite bind_bind, bind_get, bind_bind. unfold bind at 1.
  rewrite my_status_run. rewrite bind_ret.
  match goal with
  | |- exists tail, p_trace (snd (?m ?s)) = _ =>
      assert (G : grows m)
        by (repeat first [apply grows_sweep | apply grows_ret
                         | apply grows_bind | intro]);
      destruct (G s) as [t Ht]
  end.
  exists t. rewrite Ht. cbn. rewrite <- !app_assoc. reflexivity.
Qed.

(** C10: [init_shell_info] sets five fields and leaves [exit_status] as it
    was; [parse_line] does not write it either, so the round starts with
    the status the previous round left, and a [status] entered then prints
    it; entered as the first line, [status] prints whatever the slot of the
    uninitialised [info] held when [small_shell] was called. *)
Theorem exit_status_is_never_reset :
  (forall info : shell_info,
      init_shell_info info = mk_shell_info 0 (exit_status info) 0 0 "" "")
  /\ (forall (pid : Z) (text : string) (info info' : shell_info)
             (args : list string),
         parse_line pid text (init_shell_info info) = Ok (args, info') ->
         exit_status info' = exit_status info)
  /\ (forall (E : os) (p : proc),
         exists tail,
           p_trace (snd (shell_cycle E (typed "status") p))
           = p_trace p
             ++ Ev_write (p_stdout p) (p_buffer p ++ ": ")%string
             :: Ev_write (p_stdout p) (status_text (exit_status (p_info p)))
             :: tail)
  /\ (forall (E : os) (pid : Z) (garbage : shell_info),
         exists tail,
           p_trace (snd (small_shell [(E, typed "status")]
                                     (initial_proc pid garbage)))
           = Ev_write Terminal (typed "smallsh ")
             :: Ev_write Terminal ": "
             :: Ev_write Terminal (status_text (exit_status garbage))
             :: tail).
Proof.
  split; [reflexivity|]. split.
  { intros pid text info info' args H.
    apply parse_line_exit_status in H. exact H. }
  split; [apply status_round|].
  intros E pid garbage.
  unfold small_shell, custom_SIG, custom_SIGTSTP, sigaction.
  rewrite !bind_modify. unfold printf at 1. rewrite bind_modify.
  unfold fflush at 1. rewrite bind_modify.
  cbn [p_buffer with_buffer with_sigint with_sigtstp initial_proc
                String.append streq String.eqb Ascii.eqb Bool.eqb].
  cbn [shell_loop].
  match goal with
  | |- exists tail, p_trace (snd (bind (shell_cycle E ?b) ?k ?s)) = _ =>
      destruct (status_round E s) as [t Ht];
      assert (G : forall a, grows (k a))
        by (intros a; destruct (a =? 0); apply grows_ret);
      unfold bind;
      destruct (shell_cycle E b s) as [[a|c|f v|ft] s1]
  end; cbn [snd] in Ht |- *.
  - destruct (G a s1) as [t' Ht']. rewrite Ht', Ht. cbn.
    eexists. reflexivity.
  - rewrite Ht. cbn. eexists. reflexivity.
  - rewrite Ht. cbn. eexists. reflexivity.
  - rewrite Ht. cbn. eexists. reflexivity.
Qed.

(** [ls > out.txt &] entered when the status left is 768. *)
Lemma exit_status_is_never_reset_witness :
  exit_status (mk_shell_info 1 768 1 0 "out.txt" "")
  = exit_status (mk_shell_info 0 768 0 0 "" "").
Proof.
  apply (proj1 (proj2 exit_status_is_never_reset) 4242 "ls > out.txt &"
               (mk_shell_info 0 768 0 0 "" "")
               (mk_shell_info 1 768 1 0 "out.txt" "") ["ls"]).
  reflexivity.
Defined.

(** * Further properties *)

(** ** Splitting a line *)

Lemma take_token_lacks (d : ascii) (s t r : string) :
  take_token d s = (t, r) -> lacks d t = true.
Proof.
  revert t r; induction s as [|c s IH]; simpl; intros t r H.
  - now inversion H.
  - destruct (Ascii.eqb c d) eqn:Hc.
    + now inversion H.
    + destruct (take_token d s) as [t' r'] eqn:Ht. inversion H; subst.
      simpl. rewrite Hc. simpl. eapply IH. reflexivity.
Qed.

Lemma strtok_r_word (s t r : string) :
  strtok_r space s = (Some t, r) -> is_word t = true.
Proof.
  unfold strtok_r. destruct (skip_delims space s) as [|c s'] eqn:Hk; [discriminate|].
  assert (Hc : Ascii.eqb c space = false).
  { clear -Hk. induction s as [|x s IH]; simpl in Hk; [discriminate|].
    destruct (Ascii.eqb x space) eqn:Hx; [auto|]. inversion Hk; subst. exact Hx. }
  destruct (take_token space (String c s')) as [t' r'] eqn:Ht.
  intros H; inversion H; subst.
  pose proof (take_token_lacks _ _ _ _ Ht) as Hl.
  simpl in Ht. rewrite Hc in Ht.
  destruct (take_token space s') as [t2 r2]. inversion Ht; subst.
  unfold is_word. now rewrite Hl.
Qed.

Lemma tokens_upto_words (n : nat) :
  forall s, Forall (fun t => is_word t = true) (tokens_upto n space s).
Proof.
  induction n as [|n IH]; intros s; simpl; [constructor|].
  destruct (strtok_r space s) as [[t|] r] eqn:Hk; [|constructor].
  constructor; [eapply strtok_r_word; eauto|apply IH].
Qed.

(** X1: every token that [parse_line] gets from a line has at least one
    character and holds no space. *)
Theorem tokens_are_words (s : string) :
  Forall (fun t => is_word t = true) (tokens space s).
Proof. apply tokens_upto_words. Qed.

Lemma take_token_word_end (w : string) :
  lacks space w = true -> take_token space w = (w, "").
Proof.
  induction w as [|c w IH]; simpl; [reflexivity|].
  destruct (Ascii.eqb c space); simpl; [discriminate|].
  intros H. now rewrite IH.
Qed.

Lemma take_token_word_space (w r : string) :
  lacks space w = true ->
  take_token space (w ++ String space r)%string = (w, r).
Proof.
  induction w as [|c w IH]; simpl; [reflexivity|].
  destruct (Ascii.eqb c space); simpl; [discriminate|].
  intros H. now rewrite IH.
Qed.

Lemma strtok_r_word_end (w : string) :
  is_word w = true -> strtok_r space w = (Some w, "").
Proof.
  unfold is_word. intros H. apply andb_true_iff in H. destruct H as [Hn Hl].
  destruct w as [|c w]; [discriminate|].
  unfold strtok_r. pose proof Hl as Hl'. simpl in Hl.
  destruct (Ascii.eqb c space) eqn:Hc; [discriminate|].
  cbn [skip_delims]. rewrite Hc. now rewrite take_token_word_end.
Qed.

Lemma strtok_r_word_space (w r : string) :
  is_word w = true ->
  strtok_r space (w ++ String space r)%string = (Some w, r).
Proof.
  unfold is_word. intros H. apply andb_true_iff in H. destruct H as [Hn Hl].
  destruct w as [|c w]; [discriminate|].
  unfold strtok_r. pose proof Hl as Hl'. simpl in Hl.
  destruct (Ascii.eqb c space) eqn:Hc; [discriminate|].
  cbn [String.append skip_delims]. rewrite Hc.
  change (String c (w ++ String space r))%string
    with (String c w ++ String space r)%string.
  now rewrite take_token_word_space.
Qed.

(** X2: splitting undoes joining: words put together with one space
    between them come back as the same words. *)
Theorem tokens_join (ws : list string) :
  Forall (fun t => is_word t = true) ws -> tokens space (join ws) = ws.
Proof.
  induction ws as [|w ws IH]; intros H; [reflexivity|].
  inversion H as [|x l Hw Hws]; subst.
  rewrite tokens_step. destruct ws as [|w' ws'].
  - cbn [join]. rewrite strtok_r_word_end by exact Hw. reflexivity.
  - change (join (w :: w' :: ws'))
      with (w ++ String space (join (w' :: ws')))%string.
    rewrite strtok_r_word_space by exact Hw. now rewrite IH.
Qed.

(** [ls -la] and what follows. *)
Lemma tokens_join_witness :
  tokens space (join ["ls"; "-la"; "$$"]) = ["ls"; "-la"; "$$"].
Proof.
  apply tokens_join. repeat constructor.
Defined.

Lemma skip_delims_idem_spaces (n : nat) (s : string) :
  skip_delims space (spaces n ++ s)%string = skip_delims space s.
Proof. induction n as [|n IH]; [reflexivity|exact IH]. Qed.

Lemma tokens_leading_spaces (n : nat) (s : string) :
  tokens space (spaces n ++ s)%string = tokens space s.
Proof.
  rewrite (tokens_step space (spaces n ++ s)), (tokens_step space s).
  unfold strtok_r. now rewrite skip_delims_idem_spaces.
Qed.

(** X3: spaces before a word are skipped and a run of spaces after it
    separates like one space: the word is the first token, and the rest of
    the line is split on its own. *)
Theorem tokens_runs_of_spaces (n m : nat) (w s : string) :
  is_word w = true ->
  tokens space (spaces n ++ w ++ spaces (S m) ++ s)%string
  = w :: tokens space s.
Proof.
  intros Hw. rewrite tokens_leading_spaces, tokens_step.
  change (spaces (S m) ++ s)%string with (String space (spaces m ++ s))%string.
  rewrite strtok_r_word_space by exact Hw.
  now rewrite tokens_leading_spaces.
Qed.

(** [  ls   -la]. *)
Lemma tokens_runs_of_spaces_witness :
  tokens space (spaces 2 ++ "ls" ++ spaces 3 ++ "-la")%string
  = "ls" :: tokens space "-la".
Proof.
  apply (tokens_runs_of_spaces 2 2 "ls" "-la"). reflexivity.
Defined.

(** ** The line that [get_input] returns *)

Lemma take_token_all (d : ascii) (w : string) :
  lacks d w = true -> take_token d w = (w, "").
Proof.
  induction w as [|c w IH]; simpl; [reflexivity|].
  destruct (Ascii.eqb c d); simpl; [discriminate|].
  intros H. now rewrite IH.
Qed.

Lemma take_token_upto (d : ascii) (w r : string) :
  lacks d w = true -> take_token d (w ++ String d r)%string = (w, r).
Proof.
  induction w as [|c w IH]; simpl.
  - now rewrite Ascii.eqb_refl.
  - destruct (Ascii.eqb c d); simpl; [discriminate|].
    intros H. now rewrite IH.
Qed.

(** X4: [get_input] removes the newline that ends the buffer and nothing
    else; a buffer that is only a newline is returned as it is, and so is a
    buffer without a newline (a last line cut short, or a line of 2047
    characters or more). *)
Theorem chomp_strips_newline (s : string) :
  lacks newline s = true ->
  chomp (s ++ nl)%string = (if streq s "" then nl else s) /\ chomp s = s.
Proof.
  intros H. destruct s as [|c s]; [split; reflexivity|].
  pose proof H as H'. simpl in H'.
  destruct (Ascii.eqb c newline) eqn:Hc; [discriminate|]. simpl in H'.
  unfold chomp, strtok_r. cbn [String.append skip_delims]. rewrite Hc.
  rewrite !Nat.sub_diag.
  change (String c (s ++ nl))%string with (String c s ++ String newline "")%string.
  rewrite take_token_upto, take_token_all by exact H.
  split; reflexivity.
Qed.

(** [ls -la] as typed, and as the last line of a file without a newline. *)
Lemma chomp_strips_newline_witness :
  chomp ("ls -la" ++ nl)%string = (if streq "ls -la" "" then nl else "ls -la")
  /\ chomp "ls -la" = "ls -la".
Proof.
  apply (chomp_strips_newline "ls -la"). reflexivity.
Defined.

(** ** More on [parse_line] *)

Lemma is_plain_tests (t : string) :
  is_plain t = true ->
  streq t "<" = false /\ streq t ">" = false /\ streq t "&" = false
  /\ streq t "$$" = false.
Proof.
  unfold is_plain. intros H. apply negb_true_iff in H.
  repeat (apply orb_false_iff in H; destruct H as [H ?]). auto.
Qed.

Lemma push_arg_room (args : list string) (a : string) :
  (List.length args < 512)%nat -> push_arg args a = Ok (args ++ [a]).
Proof.
  intros H. unfold push_arg, ARGS_SIZE.
  destruct (512 <=? Z.of_nat (List.length args)) eqn:Hc; [|reflexivity].
  apply Z.leb_le in Hc. lia.
Qed.

Lemma push_arg_full (args : list string) (a : string) :
  (512 <= List.length args)%nat -> push_arg args a = Fault BufferOverflow.
Proof.
  intros H. unfold push_arg, ARGS_SIZE.
  destruct (512 <=? Z.of_nat (List.length args)) eqn:Hc; [reflexivity|].
  apply Z.leb_gt in Hc. lia.
Qed.

(** Plain words go into [args] one after the other while there is room. *)
Lemma parse_rest_plain (pid : Z) (ws : list string) :
  forall (rest : list string) (info : shell_info) (args : list string),
    Forall (fun t => is_plain t = true) ws ->
    (List.length args + List.length ws <= 512)%nat ->
    parse_rest pid (ws ++ rest) info args = parse_rest pid rest info (args ++ ws).
Proof.
  induction ws as [|w ws IH]; intros rest info args Hp Hlen.
  - now rewrite app_nil_r.
  - inversion Hp as [|x l Hw Hws]; subst.
    destruct (is_plain_tests w Hw) as (H1 & H2 & H3 & H4).
    cbn [app parse_rest]. rewrite H1, H2, H3, H4.
    rewrite push_arg_room by (simpl in Hlen; lia).
    rewrite IH; [|exact Hws|rewrite length_app; simpl in *; lia].
    now rewrite <- app_assoc.
Qed.

(** X5: a line of plain words (none of them [<], [>], [&] or [$$] after the
    first) with at most 512 of them is stored word for word, and [info] is
    left as it was. *)
Theorem parse_line_plain (pid : Z) (line cmd : string) (ws : list string)
        (info : shell_info) :
  tokens space line = cmd :: ws ->
  Forall (fun t => is_plain t = true) ws ->
  (List.length ws <= 511)%nat ->
  parse_line pid line info = Ok (cmd :: ws, info).
Proof.
  intros Ht Hp Hlen. unfold parse_line. rewrite Ht.
  rewrite <- (app_nil_r ws) at 1.
  rewrite parse_rest_plain by (simpl; auto; lia). reflexivity.
Qed.

(** [ls -la /tmp]. *)
Lemma parse_line_plain_witness :
  parse_line 4242 "ls -la /tmp" (mk_shell_info 0 0 0 0 "" "")
  = Ok (["ls"; "-la"; "/tmp"], mk_shell_info 0 0 0 0 "" "").
Proof.
  apply (parse_line_plain 4242 "ls -la /tmp" "ls" ["-la"; "/tmp"]).
  - reflexivity.
  - repeat constructor.
  - simpl. lia.
Defined.

(** X6: a line whose last token is [<] or [>], after plain words, makes
    [parse_line] copy from the NULL that [strtok_r] returns. *)
Theorem parse_line_redirect_without_name (pid : Z) (line cmd op : string)
        (ws : list string) (info : shell_info) :
  tokens space line = cmd :: ws ++ [op] ->
  op = "<" \/ op = ">" ->
  Forall (fun t => is_plain t = true) ws ->
  (List.length ws <= 511)%nat ->
  parse_line pid line info = Fault NullPointer.
Proof.
  intros Ht Hop Hp Hlen. unfold parse_line. rewrite Ht.
  rewrite parse_rest_plain by (simpl; auto; lia).
  destruct Hop; subst op; reflexivity.
Qed.

(** [cat <]. *)
Lemma parse_line_redirect_without_name_witness :
  parse_line 4242 "cat -n <" (mk_shell_info 0 0 0 0 "" "") = Fault NullPointer.
Proof.
  apply (parse_line_redirect_without_name 4242 "cat -n <" "cat" "<" ["-n"]).
  - reflexivity.
  - now left.
  - repeat constructor.
  - simpl. lia.
Defined.

(** X7: a file name of 256 characters or more after [<] or [>] does not fit
    its buffer of 256 bytes. *)
Theorem parse_line_long_file_name (pid : Z) (line cmd op name : string)
        (ws rest : list string) (info : shell_info) :
  tokens space line = cmd :: ws ++ op :: name :: rest ->
  op = "<" \/ op = ">" ->
  Forall (fun t => is_plain t = true) ws ->
  (List.length ws <= 511)%nat ->
  (256 <= String.length name)%nat ->
  parse_line pid line info = Fault BufferOverflow.
Proof.
  intros Ht Hop Hp Hlen Hname. unfold parse_line. rewrite Ht.
  rewrite parse_rest_plain by (simpl; auto; lia).
  assert (Hc : strcpy_filename name = Fault BufferOverflow).
  { unfold strcpy_filename, FILENAME_SIZE, strlen.
    destruct (256 <=? Z.of_nat (String.length name)) eqn:Hl; [reflexivity|].
    apply Z.leb_gt in Hl. lia. }
  destruct Hop; subst op; cbn [parse_rest streq String.eqb Ascii.eqb Bool.eqb];
    now rewrite Hc.
Qed.

(** X8: the 513th argument has no slot in [args]: with 511 plain words
    after the command, one more word, plain or [$$], is written past the
    end of the array. *)
Theorem parse_line_too_many_arguments (pid : Z) (line cmd w : string)
        (ws rest : list string) (info : shell_info) :
  tokens space line = cmd :: ws ++ w :: rest ->
  Forall (fun t => is_plain t = true) ws ->
  List.length ws = 511%nat ->
  is_plain w = true \/ w = "$$" ->
  parse_line pid line info = Fault BufferOverflow.
Proof.
  intros Ht Hp Hlen Hw. unfold parse_line. rewrite Ht.
  rewrite parse_rest_plain by (simpl; auto; lia).
  assert (Hfull : forall a, push_arg ([cmd] ++ ws) a = Fault BufferOverflow).
  { intros a. apply push_arg_full. rewrite length_app. simpl. lia. }
  destruct Hw as [Hw|Hw].
  - destruct (is_plain_tests w Hw) as (H1 & H2 & H3 & H4).
    cbn [parse_rest]. rewrite H1, H2, H3, H4. now rewrite Hfull.
  - subst w. cbn [parse_rest streq String.eqb Ascii.eqb Bool.eqb].
    now rewrite Hfull.
Qed.

Lemma plain_repeat_a (n : nat) :
  Forall (fun t => is_plain t = true) (repeat "a" n).
Proof.
  apply Forall_forall. intros x Hx. apply repeat_spec in Hx. now subst.
Qed.

(** [echo a ... a b], with 511 times [a]. *)
Lemma parse_line_too_many_arguments_witness :
  parse_line 4242 line_of_513_words (mk_shell_info 0 0 0 0 "" "")
  = Fault BufferOverflow.
Proof.
  apply (parse_line_too_many_arguments 4242 line_of_513_words "echo" "b"
                                       (repeat "a" 511) []).
  - vm_compute. reflexivity.
  - apply plain_repeat_a.
  - apply repeat_length.
  - now left.
Defined.

(** [cat < aaa...a]. *)
Lemma parse_line_long_file_name_witness :
  parse_line 4242 ("cat < " ++ name_of_256)%string (mk_shell_info 0 0 0 0 "" "")
  = Fault BufferOverflow.
Proof.
  apply (parse_line_long_file_name 4242 ("cat < " ++ name_of_256)%string
                                   "cat" "<" name_of_256 [] []).
  - vm_compute. reflexivity.
  - now left.
  - constructor.
  - simpl. lia.
  - vm_compute. apply le_n.
Defined.

Lemma strcpy_filename_fits (name : string) :
  (String.length name < 256)%nat -> strcpy_filename name = Ok name.
Proof.
  intros H. unfold strcpy_filename, FILENAME_SIZE, strlen.
  destruct (256 <=? Z.of_nat (String.length name)) eqn:Hl; [|reflexivity].
  apply Z.leb_le in Hl. lia.
Qed.

(** X9: of two redirections of the same stream the later one is the one
    recorded; the file named first is forgotten (and never opened). *)
Theorem parse_line_last_redirection_wins (pid : Z)
        (line line' cmd op a b : string) (ws rest : list string)
        (info : shell_info) :
  tokens space line = cmd :: ws ++ op :: a :: op :: b :: rest ->
  tokens space line' = cmd :: ws ++ op :: b :: rest ->
  op = "<" \/ op = ">" ->
  Forall (fun t => is_plain t = true) ws ->
  (List.length ws <= 511)%nat ->
  (String.length a < 256)%nat ->
  parse_line pid line info = parse_line pid line' info.
Proof.
  intros Ht Ht' Hop Hp Hlen Ha. unfold parse_line. rewrite Ht, Ht'.
  rewrite !parse_rest_plain by (simpl; auto; lia).
  destruct Hop; subst op;
    cbn [parse_rest streq String.eqb Ascii.eqb Bool.eqb];
    rewrite (strcpy_filename_fits a Ha);
    destruct (strcpy_filename b); reflexivity.
Qed.

(** [sort > a > b] and [sort > b]. *)
Lemma parse_line_last_redirection_wins_witness :
  parse_line 4242 "sort > a > b" (mk_shell_info 0 0 0 0 "" "")
  = parse_line 4242 "sort > b" (mk_shell_info 0 0 0 0 "" "").
Proof.
  apply (parse_line_last_redirection_wins 4242 "sort > a > b" "sort > b"
                                          "sort" ">" "a" "b" [] []).
  - reflexivity.
  - reflexivity.
  - now right.
  - constructor.
  - simpl. lia.
  - simpl. lia.
Defined.

(** ** The argument array *)

Lemma store_next (a : string) (k : nat) (args : list string) :
  store (List.length args) a (map Some args ++ repeat None (S k))
  = map Some (args ++ [a]) ++ repeat None k.
Proof.
  induction args as [|x args IH]; [reflexivity|].
  cbn [List.length map app store]. now rewrite IH.
Qed.

Lemma set_slot_push (a : string) (args : list string) :
  (List.length args <= 512)%nat ->
  match push_arg args a with
  | Ok args' =>
      set_slot (map Some args ++ repeat None (512 - List.length args))
               (List.length args) a
      = Ok (map Some args' ++ repeat None (512 - List.length args'))
      /\ List.length args' = S (List.length args)
      /\ (List.length args' <= 512)%nat
  | Fault f =>
      set_slot (map Some args ++ repeat None (512 - List.length args))
               (List.length args) a = Fault f
  end.
Proof.
  intros Hlen. unfold push_arg, set_slot.
  destruct (ARGS_SIZE <=? Z.of_nat (List.length args)) eqn:Hc; [reflexivity|].
  apply Z.leb_gt in Hc. unfold ARGS_SIZE in Hc.
  destruct (512 - List.length args)%nat as [|k] eqn:Hk; [lia|].
  rewrite store_next, length_app. cbn [List.length].
  replace (512 - (List.length args + 1))%nat with k by lia.
  repeat split; lia.
Qed.

(** The loop on the array and the loop on the list of arguments do the
    same. *)
Lemma parse_rest_slots_refines (pid : Z) (n : nat) :
  forall (toks : list string) (info : shell_info) (args : list string),
    (List.length toks <= n)%nat ->
    (List.length args <= 512)%nat ->
    match parse_rest pid toks info args with
    | Ok (args', info') =>
        parse_rest_slots pid toks info
                         (map Some args ++ repeat None (512 - List.length args))
                         (List.length args)
        = Ok (map Some args' ++ repeat None (512 - List.length args'), info')
    | Fault f =>
        parse_rest_slots pid toks info
                         (map Some args ++ repeat None (512 - List.length args))
                         (List.length args)
        = Fault f
    end.
Proof.
  induction n as [|n IH]; intros toks info args Hn Hlen.
  - destruct toks; [reflexivity|simpl in Hn; lia].
  - destruct toks as [|t rest]; [reflexivity|]. simpl in Hn.
    cbn [parse_rest parse_rest_slots].
    destruct (streq t "<").
    { destruct rest as [|name rest']; [reflexivity|].
      destruct (strcpy_filename name); [|reflexivity].
      apply IH; [simpl in Hn; lia|exact Hlen]. }
    destruct (streq t ">").
    { destruct rest as [|name rest']; [reflexivity|].
      destruct (strcpy_filename name); [|reflexivity].
      apply IH; [simpl in Hn; lia|exact Hlen]. }
    destruct (streq t "&"); [apply IH; [lia|exact Hlen]|].
    pose proof (fun a => set_slot_push a args Hlen) as Hpush.
    destruct (streq t "$$").
    + specialize (Hpush (dec pid)).
      destruct (push_arg args (dec pid)) as [args'|f]; [|now rewrite Hpush].
      destruct Hpush as (Hs & Hl & Hle). rewrite Hs, <- Hl.
      apply IH; [lia|exact Hle].
    + specialize (Hpush t).
      destruct (push_arg args t) as [args'|f]; [|now rewrite Hpush].
      destruct Hpush as (Hs & Hl & Hle). rewrite Hs, <- Hl.
      apply IH; [lia|exact Hle].
Qed.

Lemma parse_line_slots_eq (pid : Z) (line : string) (info : shell_info) :
  parse_line_slots pid line info null_args
  = match parse_line pid line info with
    | Ok (args, info') =>
        Ok (map Some args ++ repeat None (512 - List.length args), info')
    | Fault f => Fault f
    end.
Proof.
  unfold parse_line_slots, parse_line.
  destruct (tokens space line) as [|cmd rest]; [reflexivity|].
  change (set_slot null_args 0 cmd)
    with (Ok (map Some [cmd] ++ repeat None (512 - List.length [cmd]))).
  pose proof (parse_rest_slots_refines pid (List.length rest) rest info [cmd]
                                       (le_n _)) as H.
  cbn [List.length] in H. specialize (H ltac:(lia)).
  destruct (parse_rest pid rest info [cmd]) as [[args info']|f]; exact H.
Qed.

Lemma argv_of_filled (args : list string) (k : nat) :
  argv_of (map Some args ++ repeat None (S k)) = Ok args.
Proof.
  induction args as [|a args IH]; cbn [map app argv_of repeat]; [reflexivity|].
  cbn [repeat] in IH. now rewrite IH.
Qed.

Lemma argv_of_full (args : list string) :
  argv_of (map Some args) = Fault BufferOverflow.
Proof.
  induction args as [|a args IH]; [reflexivity|].
  cbn [map argv_of]. now rewrite IH.
Qed.

Lemma parse_rest_length (pid : Z) (n : nat) :
  forall toks info args args' info',
    (List.length toks <= n)%nat ->
    (List.length args <= 512)%nat ->
    parse_rest pid toks info args = Ok (args', info') ->
    (List.length args' <= 512)%nat.
Proof.
  induction n as [|n IH]; intros toks info args args' info' Hn Hlen H.
  - destruct toks; [|simpl in Hn; lia]. simpl in H. now inversion H; subst.
  - destruct toks as [|t rest]; [simpl in H; now inversion H; subst|].
    simpl in Hn. cbn [parse_rest] in H.
    destruct (streq t "<").
    { destruct rest as [|name rest']; [discriminate|].
      destruct (strcpy_filename name); [|discriminate].
      eapply IH; [| |exact H]; [simpl in Hn; lia|exact Hlen]. }
    destruct (streq t ">").
    { destruct rest as [|name rest']; [discriminate|].
      destruct (strcpy_filename name); [|discriminate].
      eapply IH; [| |exact H]; [simpl in Hn; lia|exact Hlen]. }
    destruct (streq t "&"); [eapply IH; [| |exact H]; [lia|exact Hlen]|].
    pose proof (fun a => set_slot_push a args Hlen) as Hpush.
    destruct (streq t "$$").
    + specialize (Hpush (dec pid)).
      destruct (push_arg args (dec pid)) as [a1|f]; [|discriminate].
      eapply IH; [| |exact H]; [lia|tauto].
    + specialize (Hpush t).
      destruct (push_arg args t) as [a1|f]; [|discriminate].
      eapply IH; [| |exact H]; [lia|tauto].
Qed.

(** X10: the array [args] after [parse_line].  Started on the array that
    is all NULL, [parse_line] stores the arguments in slots 0, 1, ... and
    leaves the other slots NULL, faulting exactly when the model on lists
    does; it stores no NULL behind the last argument, so the vector that
    ends at the first NULL is the list of arguments as long as they are
    fewer than 512, and with 512 of them the array holds no NULL and the
    vector is read past [args[511]]. *)
Theorem args_array_after_parse_line (pid : Z) (line : string)
        (info : shell_info) :
  parse_line_slots pid line info null_args
  = match parse_line pid line info with
    | Ok (args, info') =>
        Ok (map Some args ++ repeat None (512 - List.length args), info')
    | Fault f => Fault f
    end
  /\ (forall arr info',
         parse_line_slots pid line info null_args = Ok (arr, info') ->
         exists args,
           parse_line pid line info = Ok (args, info')
           /\ List.length arr = 512%nat
           /\ argv_of arr
              = (if (List.length args <? 512)%nat
                 then Ok args else Fault BufferOverflow)).
Proof.
  split; [apply parse_line_slots_eq|].
  intros arr info' H. rewrite parse_line_slots_eq in H.
  destruct (parse_line pid line info) as [[args info2]|f] eqn:Hp; [|discriminate].
  assert (Hlen : (List.length args <= 512)%nat).
  { unfold parse_line in Hp.
    destruct (tokens space line) as [|cmd rest]; [discriminate|].
    eapply (parse_rest_length pid (List.length rest)); [| |exact Hp];
      simpl; lia. }
  remember (512 - List.length args)%nat as k eqn:Hk.
  injection H as Harr Hinfo. subst arr info2.
  exists args. split; [reflexivity|]. split.
  { rewrite length_app, length_map, repeat_length. lia. }
  destruct (List.length args <? 512)%nat eqn:Hc.
  - apply Nat.ltb_lt in Hc. destruct k as [|k]; [lia|].
    apply argv_of_filled.
  - apply Nat.ltb_ge in Hc. assert (Hz : k = 0%nat) by lia. rewrite Hz.
    cbn [repeat]. rewrite app_nil_r. apply argv_of_full.
Qed.

(** [ls -la] on the array. *)
Lemma args_array_after_parse_line_witness :
  exists args,
    parse_line 4242 "ls -la" (mk_shell_info 0 0 0 0 "" "")
    = Ok (args, mk_shell_info 0 0 0 0 "" "")
    /\ List.length (Some "ls" :: Some "-la" :: repeat None 510) = 512%nat
    /\ argv_of (Some "ls" :: Some "-la" :: repeat None 510)
       = (if (List.length args <? 512)%nat
          then Ok args else Fault BufferOverflow).
Proof.
  apply (proj2 (args_array_after_parse_line
                  4242 "ls -la" (mk_shell_info 0 0 0 0 "" ""))
               (Some "ls" :: Some "-la" :: repeat None 510)
               (mk_shell_info 0 0 0 0 "" "")).
  vm_compute. reflexivity.
Defined.

(** ** Rules for [run_spec] *)

Section RunSpec.
Context {A B : Type}.
Variable R : ending -> proc -> Prop.

Lemma rs_bind (m : M A) (k : A -> M B) (Q : B -> proc -> Prop) (p : proc) :
  run_spec m (fun a p' => run_spec (k a) Q R p') R p ->
  run_spec (bind m k) Q R p.
Proof. unfold run_spec, bind. destruct (m p) as [[a|c|f v|ft] p']; auto. Qed.

Lemma rs_ret (a : A) (Q : A -> proc -> Prop) (p : proc) :
  Q a p -> run_spec (ret a) Q R p.
Proof. auto. Qed.

Lemma rs_get (f : proc -> A) (Q : A -> proc -> Prop) (p : proc) :
  Q (f p) p -> run_spec (get f) Q R p.
Proof. auto. Qed.

Lemma rs_exit (code : Z) (Q : A -> proc -> Prop) (p : proc) :
  (forall q, R (End_exit code) q) -> run_spec (c_exit code) Q R p.
Proof. intros H. apply H. Qed.
End RunSpec.

Section RunSpecUnit.
Variable R : ending -> proc -> Prop.
Variable Q : unit -> proc -> Prop.

Lemma rs_modify (f : proc -> proc) (p : proc) :
  Q tt (f p) -> run_spec (modify f) Q R p.
Proof. auto. Qed.

Lemma rs_when (b : bool) (m : M unit) (p : proc) :
  (b = true -> run_spec m Q R p) -> (b = false -> Q tt p) ->
  run_spec (when b m) Q R p.
Proof. destruct b; cbn; auto. Qed.

Lemma rs_input_redirection (E : os) (filename : string) (p : proc) :
  Q tt (with_stdin (File filename) p) ->
  (os_open E filename O_RDONLY = -1 -> forall q, R (End_exit 1) q) ->
  (os_dup2 E (os_open E filename O_RDONLY) 0 = -1 ->
   forall q, R (End_exit 0) q) ->
  run_spec (input_redirection E filename) Q R p.
Proof.
  intros HQ H1 H0. unfold run_spec, input_redirection.
  destruct (os_open E filename O_RDONLY =? -1) eqn:Ho.
  { apply Z.eqb_eq in Ho. cbn. now apply H1. }
  destruct (os_dup2 E (os_open E filename O_RDONLY) 0 =? -1) eqn:Hd.
  { apply Z.eqb_eq in Hd. cbn. now apply H0. }
  exact HQ.
Qed.

Lemma rs_output_redirection (E : os) (filename : string) (p : proc) :
  Q tt (with_stdout (File filename) p) ->
  (os_open E filename O_WRONLY_CREAT_TRUNC = -1
   \/ os_dup2 E (os_open E filename O_WRONLY_CREAT_TRUNC) 1 = -1 ->
   forall q, R (End_exit 1) q) ->
  run_spec (output_redirection E filename) Q R p.
Proof.
  intros HQ H1. unfold run_spec, output_redirection.
  destruct (os_open E filename O_WRONLY_CREAT_TRUNC =? -1) eqn:Ho.
  { apply Z.eqb_eq in Ho. cbn. apply H1. now left. }
  destruct (os_dup2 E (os_open E filename O_WRONLY_CREAT_TRUNC) 1 =? -1) eqn:Hd.
  { apply Z.eqb_eq in Hd. cbn. apply H1. now right. }
  exact HQ.
Qed.
End RunSpecUnit.

Lemma rs_execvp (E : os) (file : string) (argv : list string)
      (Q : Z -> proc -> Prop) (R : ending -> proc -> Prop) (p : proc) :
  (os_execvp E file argv = true -> (List.length argv < 512)%nat ->
   R (End_exec file argv) p) ->
  (os_execvp E file argv = true -> (512 <= List.length argv)%nat ->
   R (End_fault BufferOverflow) p) ->
  (os_execvp E file argv = false -> Q (-1) p) ->
  run_spec (execvp E file argv) Q R p.
Proof.
  unfold run_spec, execvp, ARGS_SIZE. intros Hok Hfull Hfail.
  destruct (os_execvp E file argv); [|auto].
  destruct (512 <=? Z.of_nat (List.length argv)) eqn:Hc.
  - apply Z.leb_le in Hc. apply Hfull; [reflexivity|lia].
  - apply Z.leb_gt in Hc. apply Hok; [reflexivity|lia].
Qed.

(** ** How a child ends *)

Section ChildEnds.
Variable E : os.
Variable args : list string.
Variable R : ending -> proc -> Prop.
Hypothesis exec_ok :
  os_execvp E (hd "" args) args = true -> (List.length args < 512)%nat ->
  forall q, R (End_exec (hd "" args) args) q.
Hypothesis args_full :
  os_execvp E (hd "" args) args = true -> (512 <= List.length args)%nat ->
  forall q, R (End_fault BufferOverflow) q.
Hypothesis exec_failed :
  os_execvp E (hd "" args) args = false -> forall q, R (End_exit 2) q.
Hypothesis redirection_failed :
  (exists f m, os_open E f m = -1) \/ (exists fd, os_dup2 E fd 1 = -1) ->
  forall q, R (End_exit 1) q.
Hypothesis stdin_rebind_failed :
  (exists fd, os_dup2 E fd 0 = -1) -> forall q, R (End_exit 0) q.

Let E' (own : Z) : os := with_fork (In_child own) E.

Lemma rs_input (own : Z) (filename : string) (Q : unit -> proc -> Prop)
      (p : proc) :
  Q tt (with_stdin (File filename) p) ->
  run_spec (input_redirection (E' own) filename) Q R p.
Proof.
  intros HQ. apply rs_input_redirection; [exact HQ| |].
  - intros Ho. apply redirection_failed. left. eauto.
  - intros Hd. apply stdin_rebind_failed. eauto.
Qed.

Lemma rs_output (own : Z) (filename : string) (Q : unit -> proc -> Prop)
      (p : proc) :
  Q tt (with_stdout (File filename) p) ->
  run_spec (output_redirection (E' own) filename) Q R p.
Proof.
  intros HQ. apply rs_output_redirection; [exact HQ|].
  intros [Ho|Hd]; apply redirection_failed; [left|right]; eauto.
Qed.

Lemma rs_redirect_and_exec (own : Z) (p : proc) :
  run_spec (info <- get p_info ;;
            when (negb (input_redirect info =? 0))
                 (input_redirection (E' own) (input_filename info)) ;;
            when (negb (output_redirect info =? 0))
                 (output_redirection (E' own) (output_filename info)) ;;
            execvp (E' own) (hd "" args) args ;;
            perror "execvp" ;;
            (c_exit 2 : M unit)) (fun _ _ => False) R p.
Proof.
  assert (Hexec : forall q,
             run_spec (execvp (E' own) (hd "" args) args ;;
                       perror "execvp" ;; (c_exit 2 : M unit))
                      (fun _ _ => False) R q).
  { intros q. apply rs_bind, rs_execvp.
    - intros H Hlen. now apply exec_ok.
    - intros H Hlen. now apply args_full.
    - intros H. apply rs_bind, rs_modify, rs_exit. now apply exec_failed. }
  assert (Hout : forall q,
             run_spec (when (negb (output_redirect (p_info p) =? 0))
                            (output_redirection (E' own) (output_filename (p_info p))) ;;
                       execvp (E' own) (hd "" args) args ;;
                       perror "execvp" ;; (c_exit 2 : M unit))
                      (fun _ _ => False) R q).
  { intros q. apply rs_bind, rs_when; intros _.
    - apply rs_output, Hexec.
    - apply Hexec. }
  apply rs_bind, rs_get. apply rs_bind, rs_when; intros _.
  - apply rs_input, Hout.
  - apply Hout.
Qed.

(** Whatever the child meets on its way, it ends in one of the four ways. *)
Lemma child_ends (own : Z) (p : proc) :
  run_spec (other_cmd (E' own) args) (fun _ _ => False) R p.
Proof.
  unfold other_cmd. apply rs_bind. unfold run_spec at 1, fork.
  cbn [E' with_fork os_fork]. unfold other_cmd_switch. cbn [Z.eqb].
  apply rs_bind. unfold custom_IG, sigaction. apply rs_modify.
  apply rs_bind, rs_get.
  destruct (background_test (with_sigtstp SIG_IGN (child_of own p))).
  - apply rs_bind. apply rs_bind, rs_get. apply rs_bind, rs_modify.
    apply rs_bind, rs_modify. apply rs_bind, rs_get.
    apply rs_bind, rs_when; intros _;
      [apply rs_output|]; (apply rs_when; intros _; [apply rs_input|]);
      apply rs_redirect_and_exec.
  - apply rs_bind. unfold sigaction. apply rs_modify.
    apply rs_redirect_and_exec.
Qed.
End ChildEnds.

(** X11: a child never comes back from [other_cmd] into the loop of the
    shell.  It runs [args[0]] with [args], fewer than 512 of them; or it
    leaves with status 2 after [execvp] has failed, with 1 after an [open]
    or a [dup2] onto descriptor 1 has failed, or with 0 after a [dup2] onto
    descriptor 0 has failed; or, when the program is found and [args] fills
    all 512 slots, so that no NULL ends the vector, [execvp] reads past the
    array.  It faults in no other way. *)
Theorem child_never_returns (E : os) (args : list string) (own : Z)
        (p : proc) :
  match fst (other_cmd (with_fork (In_child own) E) args p) with
  | Val _ => False
  | Exited code => child_ending E args (End_exit code)
  | Execed file argv => child_ending E args (End_exec file argv)
  | Faulted f => child_ending E args (End_fault f)
  end.
Proof.
  pose proof (child_ends E args (fun e _ => child_ending E args e)) as H.
  unfold run_spec in H.
  specialize (H ltac:(cbn; auto) ltac:(cbn; auto) ltac:(cbn; auto)
                ltac:(cbn; auto) ltac:(cbn; auto) own p).
  destruct (other_cmd (with_fork (In_child own) E) args p)
    as [[a|c|f v|ft] p']; exact H.
Qed.

(** X12: when every [open] and [dup2] succeeds and [execvp] fails, the
    child leaves with status 2. *)
Theorem exec_failure_exits_2 (E : os) (args : list string) (own : Z)
        (p : proc) :
  (forall f m, os_open E f m <> -1) ->
  (forall fd, os_dup2 E fd 0 <> -1) ->
  (forall fd, os_dup2 E fd 1 <> -1) ->
  os_execvp E (hd "" args) args = false ->
  fst (other_cmd (with_fork (In_child own) E) args p) = Exited 2.
Proof.
  intros Hopen Hdup0 Hdup1 Hexec.
  assert (H : run_spec (other_cmd (with_fork (In_child own) E) args)
                       (fun _ _ => False) (fun e _ => e = End_exit 2) p).
  { apply child_ends.
    - intros Ht. congruence.
    - intros Ht. congruence.
    - reflexivity.
    - intros [(f & m & Hf)|(fd & Hf)] q;
        [elim (Hopen _ _ Hf)|elim (Hdup1 _ Hf)].
    - intros (fd & Hf) q. elim (Hdup0 _ Hf). }
  unfold run_spec in H.
  destruct (other_cmd (with_fork (In_child own) E) args p)
    as [[a|c|f v|ft] p']; cbn; try contradiction; congruence.
Qed.

(** The child of [nosuchprogram -x]. *)
Lemma exec_failure_exits_2_witness :
  fst (other_cmd (with_fork (In_child 4300) (os_no_such_program Fork_failed))
                 ["nosuchprogram"; "-x"] shell_at_prompt)
  = Exited 2.
Proof.
  apply exec_failure_exits_2.
  - intros f m. discriminate.
  - intros fd. discriminate.
  - intros fd. discriminate.
  - reflexivity.
Defined.

(** ** When [fork] fails *)

Lemma is_builtin_false (arg0 : string) :
  is_builtin arg0 = false ->
  streq arg0 "exit" = false /\ streq arg0 "cd" = false
  /\ streq arg0 "status" = false
  /\ streq arg0 nl || starts_with_hash arg0 = false.
Proof.
  unfold is_builtin. intros H.
  apply orb_false_iff in H. destruct H as [H H5].
  apply orb_false_iff in H. destruct H as [H H4].
  apply orb_false_iff in H. destruct H as [H H3].
  apply orb_false_iff in H. destruct H as [H1 H2].
  rewrite H4, H5. auto.
Qed.

Lemma c_exit_run {A : Type} (code : Z) (p : proc) :
  fst (@c_exit A code p) = Exited code
  /\ p_trace (snd (@c_exit A code p))
     = p_trace p ++ flushed (p_stdout p) (p_buffer p).
Proof.
  unfold c_exit, fflush, modify, flushed.
  destruct (streq (p_buffer p) ""); cbn; [now rewrite app_nil_r|auto].
Qed.

(** X13: a command that is not handled by [execute_cmd] itself, entered
    when [fork] fails, ends the shell: it reports the failure, flushes what
    its buffer holds and leaves with status 1, without the sweep. *)
Theorem fork_failure_ends_shell (E : os) (arg0 : string) (rest : list string)
        (p : proc) :
  is_builtin arg0 = false ->
  exists p',
    execute_cmd (with_fork Fork_failed E) (arg0 :: rest) p = (Exited 1, p')
    /\ p_trace p' = p_trace p
                    ++ Ev_perror ("fork() " ++ nl)%string
                    :: flushed (p_stdout p) (p_buffer p).
Proof.
  intros Hb. destruct (is_builtin_false arg0 Hb) as (H1 & H2 & H3 & H4).
  unfold execute_cmd, dispatch. rewrite H1, H2, H3, H4.
  assert (Hrun : forall k : Z -> M Z,
             bind (other_cmd (with_fork Fork_failed E) (arg0 :: rest) ;; ret 1)
                  k p
             = let r := @c_exit unit 1 (log (Ev_perror ("fork() " ++ nl)%string) p)
               in (Exited 1, snd r)).
  { intros k. unfold other_cmd, fork. rewrite ?bind_bind.
    unfold bind at 1. cbn [with_fork os_fork]. unfold other_cmd_switch.
    cbn [Z.eqb Pos.eqb]. rewrite ?bind_bind. unfold perror.
    rewrite bind_modify. unfold bind.
    destruct (c_exit_run (A:=unit) 1 (log (Ev_perror ("fork() " ++ nl)%string) p))
      as [Hf _].
    destruct (@c_exit unit 1 (log (Ev_perror ("fork() " ++ nl)%string) p))
      as [o q]. cbn in Hf. subst o. reflexivity. }
  rewrite Hrun. eexists. split; [reflexivity|]. cbn [snd].
  rewrite (proj2 (c_exit_run 1 _)). cbn [p_trace p_stdout p_buffer log].
  now rewrite <- app_assoc.
Qed.

(** [ls], when no process can be created. *)
Lemma fork_failure_ends_shell_witness :
  exists p',
    execute_cmd (with_fork Fork_failed (os_fine Fork_failed)) ["ls"]
                shell_at_prompt = (Exited 1, p')
    /\ p_trace p' = p_trace shell_at_prompt
                    ++ Ev_perror ("fork() " ++ nl)%string
                    :: flushed (p_stdout shell_at_prompt)
                               (p_buffer shell_at_prompt).
Proof.
  apply (fork_failure_ends_shell (os_fine Fork_failed) "ls" [] shell_at_prompt).
  reflexivity.
Defined.

(** ** The value of [execute_cmd] *)

Lemma rs_any {A : Type} (m : M A) (Q : A -> proc -> Prop)
      (R : ending -> proc -> Prop) (p : proc) :
  (forall a q, Q a q) -> (forall e q, R e q) -> run_spec m Q R p.
Proof.
  intros HQ HR. unfold run_spec. destruct (m p) as [[a|c|f v|ft] p']; auto.
Qed.

Lemma rs_weaken {A : Type} (m : M A) (Q Q' : A -> proc -> Prop)
      (R : ending -> proc -> Prop) (p : proc) :
  run_spec m Q R p -> (forall a q, Q a q -> Q' a q) -> run_spec m Q' R p.
Proof.
  unfold run_spec. destruct (m p) as [[a|c|f v|ft] p']; auto.
Qed.

Lemma dispatch_value (E : os) (args : list string) (p : proc) :
  run_spec (dispatch E args)
           (fun s _ => s = if streq (hd "" args) "exit" then 0 else 1)
           (fun _ _ => True) p.
Proof.
  destruct args as [|arg0 rest]; [exact I|]. unfold dispatch. cbn [hd].
  destruct (streq arg0 "exit").
  { unfold my_exit. apply rs_bind, rs_modify, rs_bind, rs_modify, rs_ret.
    reflexivity. }
  destruct (streq arg0 "cd"); [apply rs_bind, rs_any; cbn; auto|].
  destruct (streq arg0 "status").
  { apply rs_bind, rs_get, rs_bind, rs_any; cbn; auto. }
  destruct (streq arg0 nl || starts_with_hash arg0); [reflexivity|].
  apply rs_bind, rs_any; cbn; auto.
Qed.

(** X14: when [execute_cmd] returns, it returns 0, which ends the loop of
    [small_shell], if [args[0]] is [exit], and 1 for every other line;
    what follows the word [exit] on the line makes no difference. *)
Theorem execute_cmd_value (E : os) (args : list string) (p p' : proc) (s : Z) :
  execute_cmd E args p = (Val s, p') ->
  s = if streq (hd "" args) "exit" then 0 else 1.
Proof.
  intros H.
  assert (Hs : run_spec (execute_cmd E args)
                        (fun s _ => s = if streq (hd "" args) "exit" then 0 else 1)
                        (fun _ _ => True) p).
  { unfold execute_cmd. apply rs_bind.
    eapply rs_weaken; [apply dispatch_value|].
    intros a q Ha. apply rs_bind.
    unfold run_spec. destruct (sweep E q) as [[u|c|f v|ft] q']; auto. }
  unfold run_spec in Hs. now rewrite H in Hs.
Qed.

(** [exit now], typed while a child has ended. *)
Lemma execute_cmd_value_witness :
  0 = if streq (hd "" ["exit"; "now"]) "exit" then 0 else 1.
Proof.
  apply (execute_cmd_value
           (os_fine Fork_failed) ["exit"; "now"] shell_with_ended_job
           (snd (execute_cmd (os_fine Fork_failed) ["exit"; "now"]
                             shell_with_ended_job))).
  vm_compute. reflexivity.
Defined.

(** ** The status the sweep leaves *)

Lemma last_nonempty {A : Type} (x : A) (l : list A) (d d' : A) :
  last (x :: l) d = last (x :: l) d'.
Proof.
  revert x. induction l as [|y l IH]; intros x; [reflexivity|].
  change (last (y :: l) d = last (y :: l) d'). apply IH.
Qed.

Lemma sweep_loop_status (E : os) (zs : list (Z * Z)) :
  forall (p : proc) (fuel : nat),
    p_zombies p = zs ->
    Forall (fun z => fst z > 0) zs ->
    (List.length zs < fuel)%nat ->
    exit_status (p_info (snd (sweep_loop E fuel p)))
    = last_status zs (exit_status (p_info p))
    /\ fst (sweep_loop E fuel p) = Val tt.
Proof.
  induction zs as [|[c st] zs IH]; intros p fuel Hz Hpos Hfuel.
  - destruct fuel as [|fuel]; [simpl in Hfuel; lia|].
    cbn [sweep_loop]. unfold bind, waitpid, waitpid_answer.
    change (-1 =? -1) with true. cbv iota. rewrite Hz.
    destruct (p_running p) as [|r rs]; [split; reflexivity|].
    change (WNOHANG =? WNOHANG) with true. cbv iota. split; reflexivity.
  - destruct fuel as [|fuel]; [simpl in Hfuel; lia|].
    inversion Hpos as [|z l Hc Hrest]; subst. cbn [fst] in Hc.
    rewrite (sweep_round E fuel p c st zs Hz Hc).
    match goal with
    | |- exit_status (p_info (snd (sweep_loop E fuel ?q))) = _ /\ _ =>
        destruct (IH q fuel eq_refl Hrest) as [Hs Hv]
    end; [simpl in Hfuel; lia|].
    rewrite Hs. split; [|exact Hv].
    unfold last_status. cbn [map snd p_info with_buffer log with_info
                                 exit_status set_exit_status].
    destruct zs as [|z zs']; [reflexivity|].
    cbn [map]. apply (last_nonempty (snd z) (map snd zs')).
Qed.

(** X15: the sweep leaves in [info->exit_status], where [status] reads,
    the status of the last child it has reaped, and leaves the field as it
    was when it has reaped none. *)
Theorem sweep_exit_status (E : os) (p : proc) :
  Forall (fun z => fst z > 0) (p_zombies p) ->
  fst (sweep E p) = Val tt
  /\ exit_status (p_info (snd (sweep E p)))
     = last_status (p_zombies p) (exit_status (p_info p)).
Proof.
  intros Hpos. unfold sweep.
  destruct (sweep_loop_status E (p_zombies p) p
                              (S (List.length (p_zombies p))) eq_refl Hpos)
    as [Hs Hv]; [lia|].
  split; assumption.
Qed.

(** Children 4300 and 4301 have ended, the second by signal 15. *)
Lemma sweep_exit_status_witness :
  fst (sweep (os_fine Fork_failed) shell_with_two_ended_jobs) = Val tt
  /\ exit_status (p_info (snd (sweep (os_fine Fork_failed)
                                     shell_with_two_ended_jobs)))
     = last_status (p_zombies shell_with_two_ended_jobs)
                   (exit_status (p_info shell_with_two_ended_jobs)).
Proof.
  apply sweep_exit_status. repeat constructor.
Defined.

(** ** What the shell keeps *)

Section Keeps.
Context {C : Type}.
Variable F : proc -> C.

Lemma keeps_ret {A : Type} (a : A) : keeps F (ret a).
Proof. intros p. reflexivity. Qed.

Lemma keeps_get {A : Type} (f : proc -> A) : keeps F (get f).
Proof. intros p. reflexivity. Qed.

Lemma keeps_bind {A B : Type} (m : M A) (k : A -> M B) :
  keeps F m -> (forall a, keeps F (k a)) -> keeps F (bind m k).
Proof.
  intros Hm Hk p. unfold bind. specialize (Hm p).
  destruct (m p) as [[a|c|f v|ft] p1]; cbn [snd] in Hm |- *; try exact Hm.
  now rewrite (Hk a p1).
Qed.

Lemma keeps_modify (f : proc -> proc) :
  (forall p, F (f p) = F p) -> keeps F (modify f).
Proof. intros H p. apply H. Qed.

Lemma keeps_when (b : bool) (m : M unit) : keeps F m -> keeps F (when b m).
Proof. destruct b; [auto|]. intros _. apply keeps_ret. Qed.

Lemma keeps_lift_result {A : Type} (r : result A) : keeps F (lift_result r).
Proof. intros p. now destruct r. Qed.
End Keeps.

Lemma keeps_printf (text : string) : keeps shell_fixed (printf text).
Proof. apply keeps_modify. reflexivity. Qed.

Lemma keeps_fflush : keeps shell_fixed fflush.
Proof.
  apply keeps_modify. intros p. now destruct (streq (p_buffer p) "").
Qed.

Lemma keeps_perror (msg : string) : keeps shell_fixed (perror msg).
Proof. apply keeps_modify. reflexivity. Qed.

Lemma keeps_exit {A : Type} (code : Z) : keeps shell_fixed (@c_exit A code).
Proof. intros p. apply (keeps_fflush p). Qed.

Lemma keeps_waitpid (E : os) (pid options : Z) :
  keeps shell_fixed (waitpid E pid options).
Proof.
  intros p. unfold waitpid.
  now destruct (waitpid_answer E pid options p) as [[[r [st|]] running] zombies].
Qed.

Lemma keeps_my_status (status : Z) : keeps shell_fixed (my_status status).
Proof. intros p. now rewrite my_status_run. Qed.

Lemma keeps_my_exit : keeps shell_fixed my_exit.
Proof.
  unfold my_exit.
  repeat first [apply keeps_bind | apply keeps_printf | apply keeps_fflush
               | apply keeps_ret | intro].
Qed.

Lemma keeps_my_cd (E : os) (args : list string) : keeps shell_fixed (my_cd E args).
Proof.
  unfold my_cd, chdir.
  destruct (arg1 args);
    repeat first [apply keeps_bind | apply keeps_when | apply keeps_printf
                 | apply keeps_ret | apply keeps_modify; reflexivity | intro].
Qed.

Lemma keeps_sweep_loop (E : os) (fuel : nat) :
  keeps shell_fixed (sweep_loop E fuel).
Proof.
  induction fuel as [|fuel IH]; simpl; [apply keeps_ret|].
  apply keeps_bind; [apply keeps_waitpid|]. intros corpse.
  destruct (corpse >? 0); [|apply keeps_ret].
  repeat first [apply keeps_bind | apply keeps_printf | apply keeps_fflush
               | apply keeps_get | apply keeps_my_status | exact IH | intro].
Qed.

Lemma keeps_sweep (E : os) : keeps shell_fixed (sweep E).
Proof. intros p. apply keeps_sweep_loop. Qed.

(** [other_cmd] in the shell: after a [fork] that failed or that returned
    the identifier of a child. *)
Lemma keeps_other_cmd (E : os) (args : list string) :
  in_shell E -> keeps shell_fixed (other_cmd E args).
Proof.
  unfold in_shell. intros HE p. unfold other_cmd, fork, bind at 1.
  destruct (os_fork E) as [|own|c]; [|contradiction|].
  - unfold other_cmd_switch. cbn [Z.eqb Pos.eqb].
    apply (keeps_bind shell_fixed);
      [apply keeps_perror|intros; apply keeps_exit].
  - destruct HE as [H0 H1]. unfold other_cmd_switch.
    rewrite (proj2 (Z.eqb_neq c (-1)) H1), (proj2 (Z.eqb_neq c 0) H0).
    match goal with
    | |- shell_fixed (snd (?m ?q)) = _ =>
        assert (Hk : keeps shell_fixed m)
    end.
    { apply keeps_bind; [apply keeps_get|]. intros bg. destruct bg.
      - apply keeps_bind; [apply keeps_waitpid|intros; apply keeps_ret].
      - repeat first [apply keeps_bind | apply keeps_waitpid | apply keeps_get
                     | apply keeps_when | apply keeps_my_status | intro]. }
    rewrite Hk. reflexivity.
Qed.

Lemma keeps_execute_cmd (E : os) (args : list string) :
  in_shell E -> keeps shell_fixed (execute_cmd E args).
Proof.
  intros HE. unfold execute_cmd. apply keeps_bind.
  - unfold dispatch. destruct args as [|arg0 rest]; [intros p; reflexivity|].
    destruct (streq arg0 "exit"); [apply keeps_my_exit|].
    destruct (streq arg0 "cd").
    { apply keeps_bind; [apply keeps_my_cd|intros; apply keeps_ret]. }
    destruct (streq arg0 "status").
    { repeat first [apply keeps_bind | apply keeps_get | apply keeps_my_status
                   | apply keeps_ret | intro]. }
    destruct (streq arg0 nl || starts_with_hash arg0); [apply keeps_ret|].
    apply keeps_bind; [now apply keeps_other_cmd|intros; apply keeps_ret].
  - intros status.
    apply keeps_bind; [apply keeps_sweep|intros; apply keeps_ret].
Qed.

Lemma keeps_shell_cycle (E : os) (buf : string) :
  in_shell E -> keeps shell_fixed (shell_cycle E buf).
Proof.
  intros HE. unfold shell_cycle, get_input, getpid.
  apply keeps_bind; [apply keeps_modify; reflexivity|intros _].
  apply keeps_bind.
  { apply keeps_bind; [apply keeps_printf|intros _].
    apply keeps_bind; [apply keeps_fflush|intros _]. apply keeps_ret. }
  intros line. apply keeps_bind; [apply keeps_get|intros pid].
  apply keeps_bind; [apply keeps_get|intros info].
  apply keeps_bind; [apply keeps_lift_result|intros parsed].
  apply keeps_bind; [apply keeps_modify; reflexivity|intros _].
  apply keeps_bind; [now apply keeps_execute_cmd|intros status].
  apply keeps_ret.
Qed.

Lemma keeps_shell_loop (rounds : list (os * string)) :
  Forall (fun r => in_shell (fst r)) rounds ->
  keeps shell_fixed (shell_loop rounds).
Proof.
  induction rounds as [|[E buf] rounds IH]; intros H; [apply keeps_ret|].
  inversion H as [|r l HE Hrest]; subst. cbn [fst] in HE.
  cbn [shell_loop]. apply keeps_bind; [now apply keeps_shell_cycle|].
  intros status. destruct (status =? 0); [apply keeps_ret|now apply IH].
Qed.

(** X16: whatever the lines and however the commands end, the shell itself
    keeps its process identifier, ignores SIGINT, handles SIGTSTP with
    [handle_SIG], leaves [stop_background] to that handler, and has its
    descriptors 0 and 1 on the terminal: the dispositions and redirections
    of the commands are set up in the children only. *)
Theorem shell_keeps_its_setup (rounds : list (os * string)) (pid : Z)
        (garbage : shell_info) :
  Forall (fun r => in_shell (fst r)) rounds ->
  shell_fixed (snd (small_shell rounds (initial_proc pid garbage)))
  = (pid, 0, SIG_IGN, Handler_handle_SIG, Terminal, Terminal).
Proof.
  intros H. unfold small_shell, custom_SIG, custom_SIGTSTP, sigaction.
  rewrite !bind_modify. unfold printf at 1. rewrite bind_modify.
  unfold fflush at 1. rewrite bind_modify.
  rewrite (keeps_shell_loop rounds H). reflexivity.
Qed.

(** [sort < in.txt > out.txt &], then [cat nofile], then [exit]. *)
Lemma shell_keeps_its_setup_witness :
  shell_fixed
    (snd (small_shell
            [(os_fine (In_parent 4300), typed "sort < in.txt > out.txt &");
             (os_4301_fails (In_parent 4301), typed "cat nofile");
             (os_fine Fork_failed, typed "exit")]
            (initial_proc 4242 (mk_shell_info 7 7 7 7 "x" "y"))))
  = (4242, 0, SIG_IGN, Handler_handle_SIG, Terminal, Terminal).
Proof.
  apply shell_keeps_its_setup.
  repeat constructor; discriminate.
Defined.

(** ** What [my_status] prints *)

Lemma land_255 (code : Z) : 0 <= code <= 255 -> Z.land code 255 = code.
Proof.
  intros H. change 255 with (Z.ones 8). rewrite Z.land_ones by lia.
  apply Z.mod_small. change (2 ^ 8) with 256. lia.
Qed.

Lemma exit_code_decoded (code : Z) :
  0 <= code <= 255 ->
  WIFEXITED (W_EXITCODE code) = true /\ WEXITSTATUS (W_EXITCODE code) = code.
Proof.
  intros H. unfold WIFEXITED, WEXITSTATUS, WTERMSIG, W_EXITCODE.
  rewrite (land_255 code H). split.
  - apply Z.eqb_eq. change 127 with (Z.ones 7).
    rewrite Z.land_ones, Z.shiftl_mul_pow2 by lia.
    change (2 ^ 8) with (2 * 2 ^ 7). rewrite Z.mul_assoc.
    apply Z.mod_mul. discriminate.
  - change 65280 with (Z.shiftl 255 8).
    rewrite <- Z.shiftl_land, (land_255 code H).
    rewrite Z.shiftr_shiftl_l by lia. reflexivity.
Qed.

Lemma signal_decoded (sig core : Z) :
  1 <= sig <= 127 -> core = 0 \/ core = 128 ->
  WIFEXITED (sig + core) = false /\ WTERMSIG (sig + core) = sig.
Proof.
  intros H Hcore. unfold WIFEXITED, WTERMSIG.
  assert (Hs : Z.land (sig + core) 127 = sig).
  { change 127 with (Z.ones 7). rewrite Z.land_ones by lia.
    change (2 ^ 7) with 128. destruct Hcore; subst core.
    - rewrite Z.add_0_r. apply Z.mod_small. lia.
    - replace (sig + 128) with (sig + 1 * 128) by lia.
      rewrite Z.mod_add by discriminate. apply Z.mod_small. lia. }
  rewrite Hs. split; [|reflexivity]. apply Z.eqb_neq. lia.
Qed.

(** X17: for a child that left with [exit(code)], [my_status] prints
    [exit value] and that code; for a child ended by signal [sig], with or
    without a core dump, it prints [terminated by signal] and that
    signal. *)
Theorem my_status_text (n core : Z) :
  (0 <= n <= 255 ->
   status_text (W_EXITCODE n) = ("exit value " ++ dec n ++ " " ++ nl)%string)
  /\ (1 <= n <= 127 -> core = 0 \/ core = 128 ->
      status_text (n + core)
      = ("terminated by signal " ++ dec n ++ " " ++ nl)%string)
  /\ forall status p,
      my_status status p
      = (Val tt,
         with_buffer ""
           (log (Ev_write (p_stdout p) (p_buffer p ++ status_text status)%string)
                p)).
Proof.
  split; [|split; [|apply my_status_run]].
  - intros H. destruct (exit_code_decoded n H) as [H1 H2].
    unfold status_text. now rewrite H1, H2.
  - intros H Hc. destruct (signal_decoded n core H Hc) as [H1 H2].
    unfold status_text. now rewrite H1, H2.
Qed.

(** [exit(3)], and SIGTERM. *)
Lemma my_status_text_witness :
  status_text (W_EXITCODE 3) = ("exit value " ++ dec 3 ++ " " ++ nl)%string
  /\ status_text (15 + 0)
     = ("terminated by signal " ++ dec 15 ++ " " ++ nl)%string.
Proof.
  destruct (my_status_text 3 0) as (He & _ & _).
  destruct (my_status_text 15 0) as (_ & Hs & _).
  split; [apply He; lia|apply Hs; [lia|now left]].
Defined.

(** ** The handler of the terminal-stop signal *)

Lemma handle_SIG_run (p : proc) :
  handle_SIG p
  = (Val tt,
     with_stop_background
       (if p_stop_background p =? 0 then 1 else 0)
       (snd (fflush
               (log (Ev_write (p_stdout p)
                              (if p_stop_background p =? 0
                               then entering_notice else exiting_notice))
                    p)))).
Proof.
  unfold handle_SIG. rewrite bind_get.
  destruct (p_stop_background p =? 0); reflexivity.
Qed.

(** X18: [handle_SIG] run twice brings [stop_background] back to what it
    was (it is 0 or 1 all along) and writes the two notices in full, first
    the one for the mode entered, then the one for the mode left again;
    each is written at once, past the stdio buffer, whose content follows
    the first notice. *)
Theorem handle_SIG_twice (p : proc) :
  p_stop_background p = 0 \/ p_stop_background p = 1 ->
  exists p',
    (handle_SIG ;; handle_SIG) p = (Val tt, p')
    /\ p_stop_background p' = p_stop_background p
    /\ p_buffer p' = ""
    /\ p_trace p'
       = p_trace p
         ++ Ev_write (p_stdout p)
                     (if p_stop_background p =? 0
                      then entering_notice else exiting_notice)
         :: flushed (p_stdout p) (p_buffer p)
         ++ [Ev_write (p_stdout p)
                      (if p_stop_background p =? 0
                       then exiting_notice else entering_notice)].
Proof.
  intros H. unfold bind. rewrite handle_SIG_run, handle_SIG_run.
  eexists. split; [reflexivity|].
  unfold fflush, modify, flushed, streq.
  destruct H as [H|H]; rewrite H; cbn [Z.eqb Pos.eqb snd p_buffer p_stdout
                                        p_stop_background with_stop_background log];
    destruct (String.eqb (p_buffer p) "") eqn:Hb;
    cbn [snd p_buffer p_stdout p_trace p_stop_background
             with_stop_background with_buffer log String.eqb];
    rewrite ?Hb; cbn [snd p_buffer p_stdout p_trace p_stop_background
                          with_stop_background with_buffer log String.eqb app];
    repeat split; auto; try (now apply String.eqb_eq);
    repeat rewrite <- app_assoc; reflexivity.
Qed.

(** Two terminal-stop signals at the prompt. *)
Lemma handle_SIG_twice_witness :
  exists p',
    (handle_SIG ;; handle_SIG) shell_at_prompt = (Val tt, p')
    /\ p_stop_background p' = p_stop_background shell_at_prompt
    /\ p_buffer p' = ""
    /\ p_trace p'
       = p_trace shell_at_prompt
         ++ Ev_write (p_stdout shell_at_prompt)
                     (if p_stop_background shell_at_prompt =? 0
                      then entering_notice else exiting_notice)
         :: flushed (p_stdout shell_at_prompt) (p_buffer shell_at_prompt)
         ++ [Ev_write (p_stdout shell_at_prompt)
                      (if p_stop_background shell_at_prompt =? 0
                       then exiting_notice else entering_notice)].
Proof.
  apply handle_SIG_twice. now left.
Defined.

(** ** A [cd] that fails *)

Ltac run_steps :=
  repeat first [rewrite bind_bind | rewrite bind_modify | rewrite bind_get
               | rewrite bind_ret].



(** ** The child and the buffer of the shell *)

Lemma bind_not_val {A B : Type} (m : M A) (k : A -> M B) (p : proc) :
  run_spec m (fun _ _ => False) (fun _ _ => True) p ->
  snd (bind m k p) = snd (m p).
Proof.
  unfold run_spec, bind. destruct (m p) as [[a|c|f v|ft] p']; tauto.
Qed.

(** X20: the child of a background command starts with an empty stdio
    buffer, whatever the shell had printed without flushing before the
    round (the prompt flushes it before [fork]): the first thing the child
    writes is its own line, and it writes nothing of the shell's. *)
Theorem background_child_writes_only_its_line (E : os) (buf arg0 : string)
        (rest : list string) (info1 : shell_info) (own : Z) (p : proc) :
  parse_line (p_pid p) (chomp buf) (init_shell_info (p_info p))
  = Ok (arg0 :: rest, info1) ->
  is_builtin arg0 = false ->
  background info1 <> 0 ->
  p_stop_background p = 0 ->
  exists tail,
    p_trace (snd (shell_cycle (with_fork (In_child own) E) buf p))
    = Ev_write (p_stdout p) ("background pid is " ++ dec own ++ " " ++ nl)%string
      :: tail.
Proof.
  intros Hparse Hb Hbg Hstop.
  destruct (is_builtin_false arg0 Hb) as (H1 & H2 & H3 & H4).
  unfold shell_cycle, get_input, getpid, printf at 1. run_steps.
  unfold fflush at 1. run_steps.
  cbn [p_buffer with_buffer with_info]. rewrite streq_append_nonempty.
  cbn [p_pid p_info with_buffer log with_info]. rewrite Hparse.
  unfold lift_result at 1. unfold bind at 1. run_steps.
  cbn [fst snd]. unfold execute_cmd, dispatch. rewrite H1, H2, H3, H4.
  run_steps.
  rewrite bind_not_val.
  - match goal with
    | |- exists tail, p_trace (snd (other_cmd _ _ ?q)) = _ =>
        destruct (background_child_trace E (arg0 :: rest) q own) as [t Ht]
    end.
    + unfold background_test.
      cbn [p_info p_stop_background with_info with_buffer log].
      rewrite Hstop, (proj2 (Z.eqb_neq _ _) Hbg). reflexivity.
    + exists t. exact Ht.
  - apply (child_ends E (arg0 :: rest) (fun _ _ => True)); auto.
Qed.

(** [sleep 5 &] entered after a [cd] has failed. *)
Lemma background_child_writes_only_its_line_witness :
  exists tail,
    p_trace (snd (shell_cycle (with_fork (In_child 4300) (os_fine Fork_failed))
                              (typed "sleep 5 &")
                              (with_buffer "chdir() failed" shell_at_prompt)))
    = Ev_write (p_stdout (with_buffer "chdir() failed" shell_at_prompt))
               ("background pid is " ++ dec 4300 ++ " " ++ nl)%string
      :: tail.
Proof.
  apply (background_child_writes_only_its_line
           (os_fine Fork_failed) (typed "sleep 5 &") "sleep" ["5"]
           (mk_shell_info 1 0 0 0 "" "") 4300
           (with_buffer "chdir() failed" shell_at_prompt)).
  - reflexivity.
  - reflexivity.
  - discriminate.
  - reflexivity.
Defined.
